(** * GNJ Saturn Peripheral Scanner: header locator and field decoder

    A shallow embedding of [GNJ_SaturnPeripheralScanner.py] and the
    properties of its core: sector framing detection, the search for the
    System ID header in the first sixteen sectors, and the decoding of the
    peripheral field into single-letter codes and their descriptions.

    Python values are modelled as follows.
    - [bytes]: [list byte]; every element is one of the 256 byte values.
    - [int]: [Z] (unbounded, as in Python).
    - [str]: a list of Unicode code points ([uchar], an [N]); a one-character
      string, as obtained by iterating over a [str], is a single [uchar].
    - [Optional[bytes]]: [option bytes].
    - the dictionary [PERIPHERAL_CODES]: a [gmap] from code points to names.
    - a computation that may raise: the [exc] type, with [try/except] as an
      explicit handler. *)

From Stdlib Require Import ZArith NArith Lia.
From Stdlib Require Import Strings.Byte Strings.Ascii Strings.String.
From stdpp Require Import base decidable option list numbers gmap.

Local Open Scope Z_scope.

(** ** Python data *)

Abbreviation bytes := (list byte).

#[global] Instance byte_eq_decision : EqDecision byte := Byte.byte_eq_dec.

(** [len(x)] as a Python integer. *)
Definition len {A} (l : list A) : Z := Z.of_nat (length l).

(** A slice bound as [PySlice_AdjustIndices] normalises it (step 1):
    a negative bound counts from the end, and both are clamped to
    [0 .. len]. *)
Definition adjust_index (i n : Z) : Z :=
  if i <? 0 then Z.max (i + n) 0 else Z.min i n.

(** [l[lo:hi]]. An omitted lower bound is [0]. *)
Definition slice {A} (l : list A) (lo hi : Z) : list A :=
  let n := len l in
  let start := adjust_index lo n in
  let stop := adjust_index hi n in
  take (Z.to_nat (stop - start)) (drop (Z.to_nat start) l).

(** Truth value of an [Optional[bytes]]: [None] and [b''] are false. *)
Definition truthy (o : option bytes) : bool :=
  match o with
  | None => false
  | Some b => negb (bool_decide (b = []))
  end.

(** [range(n)]. *)
Definition range (n : nat) : list Z := seqZ 0 (Z.of_nat n).

(** ** Constants *)

(** [b'SEGA SEGASATURN '] *)
Definition SATURN_MAGIC : bytes :=
  [ "S"; "E"; "G"; "A"; " "; "S"; "E"; "G"; "A"; "S"; "A"; "T"; "U"; "R"; "N"; " " ]%byte.

Definition OFFSET_HARDWARE_ID : Z := 0x00.
Definition OFFSET_MAKER_ID : Z := 0x10.
Definition OFFSET_PRODUCT_NUM : Z := 0x20.
Definition OFFSET_VERSION : Z := 0x2A.
Definition OFFSET_RELEASE_DATE : Z := 0x30.
Definition OFFSET_DEVICE_INFO : Z := 0x38.
Definition OFFSET_AREA_CODES : Z := 0x40.
Definition OFFSET_PERIPHERAL : Z := 0x50.
Definition OFFSET_GAME_TITLE : Z := 0x60.

Definition SECTOR_SIZE_MODE1 : Z := 2048.
Definition SECTOR_SIZE_RAW : Z := 2352.
Definition RAW_SECTOR_DATA_OFFSET : Z := 16.

(** ** Sector access and framing *)

(** Offset of the user data of [sector] in either framing. *)
Definition sector_offset (sector : Z) (raw_mode : bool) : Z :=
  if raw_mode then sector * SECTOR_SIZE_RAW + RAW_SECTOR_DATA_OFFSET
  else sector * SECTOR_SIZE_MODE1.

Definition read_sector_data (data : bytes) (sector : Z) (raw_mode : bool)
  : option bytes :=
  if raw_mode then
    let offset := sector * SECTOR_SIZE_RAW + RAW_SECTOR_DATA_OFFSET in
    if offset + SECTOR_SIZE_MODE1 >? len data then None
    else Some (slice data offset (offset + SECTOR_SIZE_MODE1))
  else
    let offset := sector * SECTOR_SIZE_MODE1 in
    if offset + SECTOR_SIZE_MODE1 >? len data then None
    else Some (slice data offset (offset + SECTOR_SIZE_MODE1)).

(** [bytes([0x00] + [0xFF] * 10 + [0x00])] *)
Definition sync_pattern : bytes :=
  [x00] ++ replicate 10 xff ++ [x00].

Definition detect_raw_mode (data : bytes) : bool :=
  if len data <? 16 then false
  else bool_decide (slice data 0 12 = sync_pattern).

(** The test [sector_data and sector_data[:16] == SATURN_MAGIC]. *)
Definition has_magic (sector_data : option bytes) : bool :=
  truthy sector_data &&
  match sector_data with
  | Some s => bool_decide (slice s 0 16 = SATURN_MAGIC)
  | None => false
  end.

(** One [for sector in ...] loop of [find_saturn_header]: the header of the
    first sector that passes the test, [None] when the loop runs out. *)
Fixpoint scan_sectors (data : bytes) (sectors : list Z) (raw_mode : bool)
  : option bytes :=
  match sectors with
  | [] => None
  | sector :: rest =>
      let sector_data := read_sector_data data sector raw_mode in
      if has_magic sector_data
      then (λ s, slice s 0 256) <$> sector_data
      else scan_sectors data rest raw_mode
  end.

Definition find_saturn_header (data : bytes) : option bytes * bool :=
  let is_raw := detect_raw_mode data in
  let sector_data := read_sector_data data 0 is_raw in
  if has_magic sector_data
  then ((λ s, slice s 0 256) <$> sector_data, is_raw)
  else
    match scan_sectors data (range 16) is_raw with
    | Some header => (Some header, is_raw)
    | None =>
        if is_raw then
          match scan_sectors data (range 16) false with
          | Some header => (Some header, false)
          | None => (None, false)
          end
        else (None, false)
    end.

(** ** Text *)

(** A Unicode code point; a Python [str] is a sequence of them. *)
Abbreviation uchar := N.
Abbreviation str := (list uchar).

(** Code point of an ASCII character, and a [str] literal. *)
Definition chr (a : ascii) : uchar := N_of_ascii a.
Definition lit (s : string) : str := chr <$> list_ascii_of_string s.

(** U+FFFD REPLACEMENT CHARACTER *)
Definition REPLACEMENT : uchar := 0xFFFD%N.

(** [str.isprintable] on one character. Python reads it off the Unicode
    database: categories "Other" and "Separator" are not printable, the
    ASCII space excepted. The predicate is given here on the characters a
    decoded header field can hold: Basic Latin, where U+0020..U+007E are
    printable and the controls are not, and U+FFFD (category So, printable).
    Other code points are outside the model and answer [false]. *)
Definition isprintable (c : uchar) : bool :=
  ((0x20 <=? c) && (c <=? 0x7E) || (c =? REPLACEMENT))%N.

(** [str.isspace] on one character, on the same domain: TAB, LF, VT, FF, CR,
    the separators U+001C..U+001F and the space. *)
Definition isspace (c : uchar) : bool :=
  ((0x09 <=? c) && (c <=? 0x0D) || (0x1C <=? c) && (c <=? 0x20))%N.

(** [s.rstrip()]: trailing whitespace removed. *)
Fixpoint rstrip (s : str) : str :=
  match s with
  | [] => []
  | c :: s' =>
      match rstrip s' with
      | [] => if isspace c then [] else [c]
      | r => c :: r
      end
  end.

(** [sep.join(parts)] *)
Fixpoint join (sep : str) (parts : list str) : str :=
  match parts with
  | [] => []
  | [p] => p
  | p :: rest => p ++ sep ++ join sep rest
  end.

Definition hex_digit (n : N) : uchar :=
  (if n <? 10 then chr "0" + n else chr "a" + (n - 10))%N.

(** [b.hex()]: two lowercase hexadecimal digits per byte. *)
Definition hex (b : bytes) : str :=
  b ≫= (λ x, [hex_digit (Byte.to_N x / 16); hex_digit (Byte.to_N x mod 16)]).

(** ** Exceptions *)

Inductive exception := UnicodeDecodeError.

Inductive exc (A : Type) : Type :=
  | Ok (a : A)
  | Raise (e : exception).
Arguments Ok {A} a.
Arguments Raise {A} e.

#[global] Instance exc_ret : MRet exc := λ A a, Ok a.
#[global] Instance exc_bind : MBind exc := λ A B f m,
  match m with
  | Ok a => f a
  | Raise e => Raise e
  end.
#[global] Instance exc_fmap : FMap exc := λ A B f m,
  match m with
  | Ok a => Ok (f a)
  | Raise e => Raise e
  end.

(** [try: body / except: handler] with a bare [except], which catches every
    exception. *)
Definition try_except {A} (body : exc A) (handler : exc A) : exc A :=
  match body with
  | Ok a => Ok a
  | Raise _ => handler
  end.

(** The [errors] argument of [bytes.decode]. *)
Inductive error_handler := strict | replace.

(** [b.decode('ascii', errors=...)]: a byte below 0x80 is its own code
    point; any other byte raises under [strict] and becomes U+FFFD under
    [replace]. *)
Fixpoint decode_ascii (errors : error_handler) (b : bytes) : exc str :=
  match b with
  | [] => mret []
  | x :: b' =>
      if (Byte.to_N x <? 0x80)%N then
        s ← decode_ascii errors b'; mret (Byte.to_N x :: s)
      else
        match errors with
        | strict => Raise UnicodeDecodeError
        | replace => s ← decode_ascii errors b'; mret (REPLACEMENT :: s)
        end
  end.

(** What [replace] makes of one byte. *)
Definition replaced (x : byte) : uchar :=
  if (Byte.to_N x <? 0x80)%N then Byte.to_N x else REPLACEMENT.

(** ** Field decoding *)

(** The loop of [extract_peripheral_codes] over the decoded field. *)
Definition keep_code (char : uchar) : bool :=
  negb (bool_decide (char = chr " ")) &&
  negb (bool_decide (char = 0%N)) &&
  isprintable char.

(** The same condition as a proposition: not a space, not a null
    character, printable. *)
Definition is_code (char : uchar) : Prop :=
  char ≠ chr " " ∧ char ≠ 0%N ∧ isprintable char.

#[global] Instance is_code_dec char : Decision (is_code char).
Proof. unfold is_code. apply _. Defined.

Definition collect_codes (peripheral_raw : str) : list uchar :=
  fold_left
    (λ codes char, if keep_code char then codes ++ [char] else codes)
    peripheral_raw [].

Section Decoder.

(** The decoding call of the two extraction functions. The source fixes it
    to [decode('ascii', errors='replace')]; the [try/except] skeleton
    around it is the same for any decoder. *)
Variable decode : bytes → exc str.

Definition extract_peripheral_codes_with (header : bytes)
  : exc (str * list uchar) :=
  let peripheral_bytes :=
    slice header OFFSET_PERIPHERAL (OFFSET_PERIPHERAL + 16) in
  peripheral_raw ←
    try_except (decode peripheral_bytes) (mret (hex peripheral_bytes));
  let codes := collect_codes peripheral_raw in
  mret (peripheral_raw, codes).

Definition extract_game_info_with (header : bytes)
  : exc (str * str * str * str) :=
  try_except
    (let title_bytes :=
       slice header OFFSET_GAME_TITLE (OFFSET_GAME_TITLE + 112) in
     game_title ← rstrip <$> decode title_bytes;
     let version_bytes :=
       slice header OFFSET_VERSION (OFFSET_VERSION + 6) in
     version ← rstrip <$> decode version_bytes;
     let product_bytes :=
       slice header OFFSET_PRODUCT_NUM (OFFSET_PRODUCT_NUM + 10) in
     product_number ← rstrip <$> decode product_bytes;
     let area_bytes :=
       slice header OFFSET_AREA_CODES (OFFSET_AREA_CODES + 16) in
     area_codes ← rstrip <$> decode area_bytes;
     mret (game_title, version, product_number, area_codes))
    (mret ([], [], [], [])).

End Decoder.

Definition extract_peripheral_codes : bytes → exc (str * list uchar) :=
  extract_peripheral_codes_with (decode_ascii replace).

Definition extract_game_info : bytes → exc (str * str * str * str) :=
  extract_game_info_with (decode_ascii replace).

(** ** Peripheral catalog and scan results *)

Definition PERIPHERAL_CODES : gmap uchar str :=
  list_to_map
    [ (chr "J", lit "Control Pad");
      (chr "A", lit "Analog Controller");
      (chr "E", lit "3D Controller");
      (chr "M", lit "Mouse");
      (chr "K", lit "Keyboard");
      (chr "S", lit "Steering Controller");
      (chr "T", lit "Multitap");
      (chr "G", lit "Virtua Gun");
      (chr "W", lit "RAM Cartridge");
      (chr "C", lit "Link Cable (JP)");
      (chr "D", lit "DirectLink (US)");
      (chr "X", lit "NetLink Modem");
      (chr "Q", lit "Pachinko Controller");
      (chr "F", lit "Floppy Drive");
      (chr "R", lit "ROM Cartridge");
      (chr "P", lit "Video CD Card") ].

Record ScanResult := {
  filepath : str;
  filename : str;
  success : bool;
  skipped : bool;
  skip_reason : str;
  peripheral_raw : str;
  peripheral_codes : list uchar;
  game_title : str;
  version : str;
  product_number : str;
  area_codes : str;
}.

(** [ScanResult.__init__]; [filename] is [os.path.basename(filepath)], which
    the file-system layer supplies. *)
Definition ScanResult_init (filepath filename : str) : ScanResult :=
  {| filepath := filepath; filename := filename;
     success := false; skipped := false; skip_reason := [];
     peripheral_raw := []; peripheral_codes := [];
     game_title := []; version := []; product_number := [];
     area_codes := [] |}.

(** The f-string [f"Unknown({code})"]. *)
Definition unknown (code : uchar) : str :=
  lit "Unknown(" ++ [code] ++ lit ")".

(** The description the loop of [get_human_readable_peripherals] appends
    for one code. *)
Definition describe (code : uchar) : str :=
  match PERIPHERAL_CODES !! code with
  | Some name => name
  | None => unknown code
  end.

(** The sixteen documented codes. *)
Definition known_codes : list uchar := lit "JAEMKSTGWCDXQFRP".

(** The loop of [get_human_readable_peripherals]: one description per
    code. *)
Definition describe_codes (codes : list uchar) : list str :=
  fold_left
    (λ descriptions code,
       match PERIPHERAL_CODES !! code with
       | Some name => descriptions ++ [name]
       | None => descriptions ++ [unknown code]
       end)
    codes [].

Definition get_human_readable_peripherals (self : ScanResult) : str :=
  let descriptions := describe_codes (peripheral_codes self) in
  join (lit ", ") descriptions.

(** The body of [scan_file] once [data] has been read: locate the header,
    decode it, fill in the result. *)
Definition scan_data (result : ScanResult) (data : bytes) : exc ScanResult :=
  let '(header, is_raw) := find_saturn_header data in
  match header with
  | None =>
      mret {| filepath := filepath result; filename := filename result;
              success := success result; skipped := true;
              skip_reason := lit "No Saturn header found";
              peripheral_raw := peripheral_raw result;
              peripheral_codes := peripheral_codes result;
              game_title := game_title result; version := version result;
              product_number := product_number result;
              area_codes := area_codes result |}
  | Some header =>
      '(raw, codes) ← extract_peripheral_codes header;
      '(title, ver, product, area) ← extract_game_info header;
      mret {| filepath := filepath result; filename := filename result;
              success := true; skipped := skipped result;
              skip_reason := skip_reason result;
              peripheral_raw := raw; peripheral_codes := codes;
              game_title := title; version := ver;
              product_number := product; area_codes := area |}
  end.

(** [field] is [text] without a trailing run of whitespace: what
    [text.rstrip()] is to return. *)
Definition trimmed (text field : str) : Prop :=
  (∃ ws, text = field ++ ws ∧ Forall (λ c, isspace c = true) ws) ∧
  (∀ c, last field = Some c → isspace c = false).

(** ** Report layout *)

Definition COL_TITLE : Z := 50.
Definition COL_VERSION : Z := 8.
Definition COL_PERIPH_CODES : Z := 18.
Definition COL_PERIPH_DESC : Z := 55.
Definition COL_FILENAME : Z := 40.

(** [text.ljust(width)], also the format specification [:<width] on a
    string: spaces are added on the right up to [width], and a string that
    is already that long is returned as it is. *)
Definition ljust (text : str) (width : Z) : str :=
  text ++ replicate (Z.to_nat (width - len text)) (chr " ").

Definition truncate_or_pad (text : str) (width : Z) : str :=
  if len text >? width then slice text 0 (width - 3) ++ lit "..."
  else ljust text width.

(** The column separator of the f-strings and the end of a written line. *)
Definition bar : str := lit " | ".
Definition newline : str := [10%N].

(** The three row f-strings of [print_results] and
    [write_results_to_file]. *)
Definition skipped_row (result : ScanResult) : str :=
  truncate_or_pad (lit "SKIPPED") COL_TITLE ++ bar ++
  ljust [] COL_VERSION ++ bar ++
  ljust [] COL_PERIPH_CODES ++ bar ++
  truncate_or_pad (skip_reason result) COL_PERIPH_DESC ++ bar ++
  filename result.

Definition success_row (result : ScanResult) : str :=
  let title := truncate_or_pad (game_title result) COL_TITLE in
  let version := truncate_or_pad (version result) COL_VERSION in
  let codes_str :=
    truncate_or_pad (rstrip (peripheral_raw result)) COL_PERIPH_CODES in
  let periph_desc :=
    truncate_or_pad (get_human_readable_peripherals result) COL_PERIPH_DESC in
  title ++ bar ++ version ++ bar ++ codes_str ++ bar ++ periph_desc ++ bar ++
  filename result.

Definition error_row (result : ScanResult) : str :=
  truncate_or_pad (lit "ERROR") COL_TITLE ++ bar ++
  ljust [] COL_VERSION ++ bar ++
  ljust [] COL_PERIPH_CODES ++ bar ++
  ljust (lit "Failed to read") COL_PERIPH_DESC ++ bar ++
  filename result.

(** The [for result in results] loop of [print_results]: the counters
    [successful] and [skipped] and the lines printed, in order. *)
Definition print_results_loop (results : list ScanResult)
  : Z * Z * list str :=
  fold_left
    (λ '(successful, skipped_count, printed) result,
       if skipped result then
         (successful, skipped_count + 1, printed ++ [skipped_row result])
       else if success result then
         (successful + 1, skipped_count, printed ++ [success_row result])
       else (successful, skipped_count, printed))
    results (0, 0, []).

(** The line one pass of that loop prints, if it prints one. *)
Definition printed_row (result : ScanResult) : option str :=
  if skipped result then Some (skipped_row result)
  else if success result then Some (success_row result)
  else None.

(** The line [write_results_to_file] writes for one result. *)
Definition written_row (result : ScanResult) : str :=
  if skipped result then skipped_row result ++ newline
  else if success result then success_row result ++ newline
  else error_row result ++ newline.


(** ** Scanning a file *)

(** What [open(filepath, 'rb')] followed by [f.read(read_size)] comes to. *)
Inductive read_outcome :=
  | ReadData (data : bytes)
  | ReadPermissionError
  | ReadException (message : str).

(** The operating system as [scan_file] sees it. *)
Record file_system := {
  (** [os.path.basename(filepath)] *)
  basename : str → str;
  (** [os.path.splitext(filepath)[1].lower()] *)
  splitext_lower : str → str;
  (** [os.path.isfile(filepath)] *)
  isfile : str → bool;
  (** [os.path.getsize(filepath)] *)
  getsize : str → Z;
  (** [open(filepath, 'rb').read(read_size)] *)
  read_prefix : str → Z → read_outcome;
  (** [str(e)] *)
  exception_text : exception → str;
}.

(** [result.skipped = True; result.skip_reason = reason] *)
Definition skip (result : ScanResult) (reason : str) : ScanResult :=
  {| filepath := filepath result; filename := filename result;
     success := success result; skipped := true; skip_reason := reason;
     peripheral_raw := peripheral_raw result;
     peripheral_codes := peripheral_codes result;
     game_title := game_title result; version := version result;
     product_number := product_number result;
     area_codes := area_codes result |}.

(** [scan_file(filepath)]; the argument is called [path] here, [filepath]
    being the field of the result. *)
Definition scan_file (fs : file_system) (path : str) : ScanResult :=
  let result := ScanResult_init path (basename fs path) in
  let ext := splitext_lower fs path in
  if negb (bool_decide (ext ∈ [lit ".iso"; lit ".bin"])) then
    skip result (lit "Unsupported file type: " ++ ext)
  else if negb (isfile fs path) then
    skip result (lit "File not found")
  else
    let file_size := getsize fs path in
    if file_size <? SECTOR_SIZE_MODE1 then
      skip result (lit "File too small to be valid Saturn image")
    else
      let read_size := Z.min file_size 65536 in
      match read_prefix fs path read_size with
      | ReadPermissionError => skip result (lit "Permission denied")
      | ReadException message => skip result (lit "Error: " ++ message)
      | ReadData data =>
          match find_saturn_header data with
          | (None, _) => skip result (lit "No Saturn header found")
          | (Some header, _) =>
              match extract_peripheral_codes header with
              | Raise e => skip result (lit "Error: " ++ exception_text fs e)
              | Ok (raw, codes) =>
                  let result :=
                    {| filepath := filepath result;
                       filename := filename result;
                       success := success result;
                       skipped := skipped result;
                       skip_reason := skip_reason result;
                       peripheral_raw := raw; peripheral_codes := codes;
                       game_title := game_title result;
                       version := version result;
                       product_number := product_number result;
                       area_codes := area_codes result |} in
                  match extract_game_info header with
                  | Raise e =>
                      skip result (lit "Error: " ++ exception_text fs e)
                  | Ok (title, ver, product, area) =>
                      {| filepath := filepath result;
                         filename := filename result;
                         success := true;
                         skipped := skipped result;
                         skip_reason := skip_reason result;
                         peripheral_raw := peripheral_raw result;
                         peripheral_codes := peripheral_codes result;
                         game_title := title; version := ver;
                         product_number := product; area_codes := area |}
                  end
              end
          end
      end.

(** ** Sample inputs *)

Definition zeros (n : Z) : bytes := replicate (Z.to_nat n) x00.

(** One stripped sector that starts with the signature. *)
Definition stripped_image : bytes := SATURN_MAGIC ++ zeros 2032.

(** One raw sector: sync, a four-byte sector header, the user data, and the
    288 bytes of error correction. *)
Definition raw_image : bytes :=
  sync_pattern ++ [x00; x02; x00; x01] ++ SATURN_MAGIC ++ zeros 2032 ++
  zeros 288.

(** Six stripped sectors behind a stray sync pattern, the signature at the
    start of the sixth. *)
Definition fallback_image : bytes :=
  sync_pattern ++ zeros 10228 ++ SATURN_MAGIC ++ zeros 2032.

(** The peripheral field "JAMK" followed by twelve spaces, and "JZ"
    followed by fourteen. *)
Definition jamk_field : bytes :=
  [ "J"; "A"; "M"; "K" ]%byte ++ replicate 12 " "%byte.

Definition jz_field : bytes :=
  [ "J"; "Z" ]%byte ++ replicate 14 " "%byte.

(** A header with the given peripheral field and first title byte. *)
Definition header_with (field : bytes) (title0 : byte) : bytes :=
  SATURN_MAGIC ++ zeros 64 ++ field ++ [title0] ++ zeros 159.

Definition jamk_header : bytes := header_with jamk_field "G"%byte.

Definition jz_header : bytes := header_with jz_field "G"%byte.

(** A header whose peripheral field holds the non-ASCII byte 0xFF. *)
Definition high_byte_header : bytes :=
  header_with ([ "J"; xff ]%byte ++ replicate 14 " "%byte) "G"%byte.

(** A header whose title starts with the non-ASCII byte 0xFF. *)
Definition high_title_header : bytes := header_with jamk_field xff.

(** A sync pattern and nothing else. *)
Definition short_sync_image : bytes := sync_pattern.

(** Two stripped sectors behind a sync pattern, the signature at the start
    of the second: raw sectors 1 to 15 do not fit in the buffer. *)
Definition truncated_image : bytes :=
  sync_pattern ++ zeros 2036 ++ SATURN_MAGIC ++ zeros 2032.

(** A file system that holds one regular file with the given content under
    every name; the extension is the last four characters of the name. *)
Definition single_file_system (content : bytes) : file_system :=
  {| basename := λ p, p;
     splitext_lower := λ p, drop (length p - 4) p;
     isfile := λ _, true;
     getsize := λ _, len content;
     read_prefix := λ _ n, ReadData (slice content 0 n);
     exception_text := λ _, [] |}.

(** * Properties *)

(** ** Slices *)

Lemma adjust_index_in_range (i n : Z) : 0 ≤ i ≤ n → adjust_index i n = i.
Proof.
  intros Hi. unfold adjust_index.
  destruct (Z.ltb_spec i 0); lia.
Qed.

Lemma slice_in_range {A} (l : list A) (lo hi : Z) :
  0 ≤ lo ≤ hi → hi ≤ len l →
  slice l lo hi = take (Z.to_nat (hi - lo)) (drop (Z.to_nat lo) l).
Proof.
  intros Hlo Hhi. unfold slice.
  rewrite !adjust_index_in_range by lia. reflexivity.
Qed.

Lemma len_slice {A} (l : list A) (lo hi : Z) :
  0 ≤ lo ≤ hi → hi ≤ len l → len (slice l lo hi) = hi - lo.
Proof.
  intros Hlo Hhi. rewrite slice_in_range by assumption.
  unfold len in *. rewrite length_take, length_drop. lia.
Qed.

(** A prefix of a window is a window at the same offset. *)
Lemma slice_prefix {A} (l : list A) (lo m n : Z) :
  0 ≤ lo → 0 ≤ n ≤ m → lo + m ≤ len l →
  slice (slice l lo (lo + m)) 0 n = slice l lo (lo + n).
Proof.
  intros Hlo Hn Hm.
  rewrite (slice_in_range (slice l lo (lo + m)) 0 n)
    by (rewrite ?len_slice; lia).
  rewrite !(slice_in_range l) by lia.
  rewrite drop_0, take_take. f_equal. lia.
Qed.

(** ** Reading a sector *)

Lemma read_sector_data_offset (data : bytes) (sector : Z) (raw_mode : bool) :
  read_sector_data data sector raw_mode =
  let offset := sector_offset sector raw_mode in
  if offset + SECTOR_SIZE_MODE1 >? len data then None
  else Some (slice data offset (offset + SECTOR_SIZE_MODE1)).
Proof. destruct raw_mode; reflexivity. Qed.

Lemma read_sector_data_in_bounds (data : bytes) (sector : Z) (raw_mode : bool) :
  sector_offset sector raw_mode + 2048 ≤ len data →
  read_sector_data data sector raw_mode =
  Some (slice data (sector_offset sector raw_mode)
          (sector_offset sector raw_mode + 2048)).
Proof.
  intros Hb. rewrite read_sector_data_offset. cbv zeta.
  unfold SECTOR_SIZE_MODE1.
  destruct (Z.gtb_spec (sector_offset sector raw_mode + 2048) (len data));
    [lia | reflexivity].
Qed.

Lemma read_sector_data_truncated (data : bytes) (sector : Z) (raw_mode : bool) :
  sector_offset sector raw_mode + 2048 > len data →
  read_sector_data data sector raw_mode = None.
Proof.
  intros Hb. rewrite read_sector_data_offset. cbv zeta.
  unfold SECTOR_SIZE_MODE1.
  destruct (Z.gtb_spec (sector_offset sector raw_mode + 2048) (len data));
    [reflexivity | lia].
Qed.

Lemma read_sector_data_Some (data : bytes) (sector : Z) (raw_mode : bool) s :
  read_sector_data data sector raw_mode = Some s →
  sector_offset sector raw_mode + 2048 ≤ len data ∧
  s = slice data (sector_offset sector raw_mode)
        (sector_offset sector raw_mode + 2048).
Proof.
  intros E.
  destruct (Z_le_gt_dec (sector_offset sector raw_mode + 2048) (len data))
    as [Hb|Hb].
  - rewrite read_sector_data_in_bounds in E by assumption.
    split; [assumption | congruence].
  - rewrite read_sector_data_truncated in E by assumption. discriminate.
Qed.

Lemma sector_offset_nonneg (sector : Z) (raw_mode : bool) :
  0 ≤ sector → 0 ≤ sector_offset sector raw_mode.
Proof.
  intros Hs. unfold sector_offset, SECTOR_SIZE_RAW, RAW_SECTOR_DATA_OFFSET,
    SECTOR_SIZE_MODE1. destruct raw_mode; lia.
Qed.

(** ** The signature test *)

Lemma has_magic_true (o : option bytes) :
  has_magic o = true ↔ ∃ s, o = Some s ∧ slice s 0 16 = SATURN_MAGIC.
Proof.
  unfold has_magic, truthy. split.
  - destruct o as [s|]; [|discriminate].
    intros [_ E%bool_decide_eq_true]%andb_true_iff. eauto.
  - intros (s & -> & E). apply andb_true_iff. split.
    + apply negb_true_iff, bool_decide_eq_false. intros ->.
      vm_compute in E. discriminate.
    + apply bool_decide_eq_true. assumption.
Qed.

Lemma has_magic_false (o : option bytes) :
  has_magic o = false ↔ ∀ s, o = Some s → slice s 0 16 ≠ SATURN_MAGIC.
Proof.
  rewrite <- not_true_iff_false, has_magic_true. split.
  - intros Hn s -> E. apply Hn. eauto.
  - intros Hn (s & E1 & E2). exact (Hn s E1 E2).
Qed.

(** The test on an in-bounds window looks at sixteen bytes of the buffer. *)
Lemma has_magic_window (data : bytes) (sector : Z) (raw_mode : bool) :
  0 ≤ sector → sector_offset sector raw_mode + 2048 ≤ len data →
  has_magic (read_sector_data data sector raw_mode) =
  bool_decide (slice data (sector_offset sector raw_mode)
                 (sector_offset sector raw_mode + 16) = SATURN_MAGIC).
Proof.
  intros Hs Hb. pose proof (sector_offset_nonneg sector raw_mode Hs) as Ho.
  rewrite read_sector_data_in_bounds by assumption.
  destruct (bool_decide _) eqn:E.
  - apply bool_decide_eq_true in E. apply has_magic_true.
    eexists; split; [reflexivity|]. rewrite slice_prefix by lia. assumption.
  - apply bool_decide_eq_false in E. apply has_magic_false.
    intros s [= <-]. rewrite slice_prefix by lia. assumption.
Qed.

(** ** The sector loop *)

Lemma scan_sectors_skip (data : bytes) (sector : Z) rest (raw_mode : bool) :
  has_magic (read_sector_data data sector raw_mode) = false →
  scan_sectors data (sector :: rest) raw_mode =
  scan_sectors data rest raw_mode.
Proof. intros E. simpl. rewrite E. reflexivity. Qed.

Lemma scan_sectors_hit (data : bytes) (sector : Z) rest (raw_mode : bool) s :
  read_sector_data data sector raw_mode = Some s →
  slice s 0 16 = SATURN_MAGIC →
  scan_sectors data (sector :: rest) raw_mode = Some (slice s 0 256).
Proof.
  intros E M. simpl.
  assert (has_magic (read_sector_data data sector raw_mode) = true) as ->
    by (apply has_magic_true; eauto).
  rewrite E. reflexivity.
Qed.

Lemma scan_sectors_app (data : bytes) (l1 l2 : list Z) (raw_mode : bool) :
  scan_sectors data (l1 ++ l2) raw_mode =
  match scan_sectors data l1 raw_mode with
  | Some header => Some header
  | None => scan_sectors data l2 raw_mode
  end.
Proof.
  induction l1 as [|sector l1 IH]; simpl; [reflexivity|].
  destruct (has_magic _) eqn:E; [|exact IH].
  apply has_magic_true in E as (s & -> & _). reflexivity.
Qed.

Lemma scan_sectors_none (data : bytes) (l : list Z) (raw_mode : bool) :
  (∀ sector, sector ∈ l →
     has_magic (read_sector_data data sector raw_mode) = false) →
  scan_sectors data l raw_mode = None.
Proof.
  induction l as [|sector l IH]; intros H; [reflexivity|].
  rewrite scan_sectors_skip by (apply H; left).
  apply IH. intros s Hs. apply H. right. assumption.
Qed.

Lemma scan_sectors_Some (data : bytes) (l : list Z) (raw_mode : bool) header :
  scan_sectors data l raw_mode = Some header →
  ∃ sector s, sector ∈ l ∧
    read_sector_data data sector raw_mode = Some s ∧
    slice s 0 16 = SATURN_MAGIC ∧ header = slice s 0 256.
Proof.
  induction l as [|sector l IH]; simpl; [discriminate|].
  destruct (has_magic _) eqn:E.
  - apply has_magic_true in E as (s & E & M). rewrite E. intros [= <-].
    exists sector, s. repeat split; [left | assumption..].
  - intros (sector' & s & Hin & ?)%IH. exists sector', s.
    split; [right|]; assumption.
Qed.

Lemma range_16 : range 16 = [0; 1; 2; 3; 4; 5; 6; 7; 8; 9; 10; 11; 12; 13; 14; 15].
Proof. reflexivity. Qed.

Lemma elem_of_range_16 (sector : Z) : sector ∈ range 16 ↔ 0 ≤ sector < 16.
Proof. unfold range. rewrite elem_of_seqZ. lia. Qed.

(** The look at sector 0 before the first loop is the loop's own first
    iteration, so the search is the two loops. *)
Lemma find_saturn_header_loops (data : bytes) :
  find_saturn_header data =
  let is_raw := detect_raw_mode data in
  match scan_sectors data (range 16) is_raw with
  | Some header => (Some header, is_raw)
  | None =>
      if is_raw then
        match scan_sectors data (range 16) false with
        | Some header => (Some header, false)
        | None => (None, false)
        end
      else (None, false)
  end.
Proof.
  unfold find_saturn_header. cbv zeta.
  destruct (has_magic (read_sector_data data 0 (detect_raw_mode data))) eqn:E;
    [|reflexivity].
  rewrite range_16. simpl scan_sectors. rewrite E.
  apply has_magic_true in E as (s & -> & _). reflexivity.
Qed.

(** Every header a loop returns is 256 bytes behind a signature. *)
Lemma scan_sectors_header (data : bytes) (l : list Z) (raw_mode : bool) header :
  (∀ sector, sector ∈ l → 0 ≤ sector) →
  scan_sectors data l raw_mode = Some header →
  len header = 256 ∧ slice header 0 16 = SATURN_MAGIC.
Proof.
  intros Hl (sector & s & Hin & E & M & ->)%scan_sectors_Some.
  apply read_sector_data_Some in E as [Hb ->].
  pose proof (sector_offset_nonneg sector raw_mode (Hl _ Hin)) as Ho.
  rewrite slice_prefix in M |- * by lia.
  split.
  - rewrite len_slice; lia.
  - rewrite <- M. rewrite <- (slice_prefix data _ 256 16) by lia. reflexivity.
Qed.

(** ** Framing detection *)

Lemma detect_raw_mode_true (data : bytes) :
  detect_raw_mode data = true ↔
  16 ≤ len data ∧ slice data 0 12 = sync_pattern.
Proof.
  unfold detect_raw_mode. destruct (Z.ltb_spec (len data) 16).
  - split; [discriminate | lia].
  - rewrite bool_decide_eq_true. intuition lia.
Qed.

(** A buffer that starts with the signature does not start with the sync
    pattern. *)
Lemma magic_not_sync (data : bytes) :
  16 ≤ len data → slice data 0 16 = SATURN_MAGIC →
  detect_raw_mode data = false.
Proof.
  intros Hl M. apply not_true_iff_false.
  intros [_ S]%detect_raw_mode_true.
  pose proof (slice_prefix data 0 16 12) as P.
  specialize (P ltac:(lia) ltac:(lia) ltac:(lia)).
  rewrite !Z.add_0_l, M, S in P. vm_compute in P. discriminate.
Qed.

(** The fast path: the detected framing's sector 0 carries the signature. *)
Lemma find_saturn_header_sector0 (data : bytes) (raw_mode : bool) (offset : Z) :
  detect_raw_mode data = raw_mode →
  sector_offset 0 raw_mode = offset →
  offset + 2048 ≤ len data →
  slice data offset (offset + 16) = SATURN_MAGIC →
  find_saturn_header data = (Some (slice data offset (offset + 256)), raw_mode).
Proof.
  intros Hm Ho Hb M.
  assert (0 ≤ offset) by (subst offset; apply sector_offset_nonneg; lia).
  unfold find_saturn_header. cbv zeta. rewrite Hm.
  rewrite has_magic_window, Ho by (rewrite ?Ho; lia).
  rewrite bool_decide_eq_true_2 by assumption.
  rewrite read_sector_data_in_bounds, Ho by (rewrite ?Ho; lia).
  simpl fmap. rewrite slice_prefix by lia. reflexivity.
Qed.

(** C1. A buffer of at least 2048 bytes that starts with the signature
    "SEGA SEGASATURN " is located at sector 0 in Stripped framing: the header
    returned is bytes [0,256) of the buffer and the mode flag is [false]
    (not raw). *)
Theorem stripped_sector0_located (data : bytes) :
  2048 ≤ len data →
  slice data 0 16 = SATURN_MAGIC →
  find_saturn_header data = (Some (slice data 0 256), false).
Proof.
  intros Hl M.
  apply (find_saturn_header_sector0 data false 0);
    [apply magic_not_sync; [lia | assumption] | reflexivity | lia | exact M].
Qed.

Lemma stripped_sector0_located_witness :
  find_saturn_header stripped_image =
  (Some (slice stripped_image 0 256), false).
Proof.
  apply (stripped_sector0_located stripped_image).
  - vm_compute. discriminate.
  - vm_compute. reflexivity.
Defined.

(** C2. A buffer of at least 2064 bytes that starts with the CD-ROM sync
    pattern and carries the signature at bytes [16,32) is located at sector 0
    in Raw framing: the header returned is bytes [16,272) of the buffer and
    the mode flag is [true] (raw). *)
Theorem raw_sector0_located (data : bytes) :
  2064 ≤ len data →
  slice data 0 12 = sync_pattern →
  slice data 16 32 = SATURN_MAGIC →
  find_saturn_header data = (Some (slice data 16 272), true).
Proof.
  intros Hl S M.
  apply (find_saturn_header_sector0 data true 16);
    [apply detect_raw_mode_true; split; [lia | assumption]
    | reflexivity | lia | exact M].
Qed.

Lemma raw_sector0_located_witness :
  find_saturn_header raw_image = (Some (slice raw_image 16 272), true).
Proof.
  apply (raw_sector0_located raw_image).
  - vm_compute. discriminate.
  - vm_compute. reflexivity.
  - vm_compute. reflexivity.
Defined.

(** ** The fallback path *)

Lemma has_magic_None : has_magic None = false.
Proof. reflexivity. Qed.

Lemma has_magic_sector_false (data : bytes) (sector : Z) (raw_mode : bool) :
  0 ≤ sector →
  (sector_offset sector raw_mode + 2048 ≤ len data →
   slice data (sector_offset sector raw_mode)
     (sector_offset sector raw_mode + 16) ≠ SATURN_MAGIC) →
  has_magic (read_sector_data data sector raw_mode) = false.
Proof.
  intros Hs Hn.
  destruct (Z_le_gt_dec (sector_offset sector raw_mode + 2048) (len data))
    as [Hb|Hb].
  - rewrite has_magic_window by assumption.
    apply bool_decide_eq_false. auto.
  - rewrite read_sector_data_truncated by assumption. reflexivity.
Qed.

(** C3. A buffer that starts with the sync pattern, in which no raw sector
    window 0..15 that fits in the buffer starts with the signature, and in
    which stripped sector 5 is the first stripped sector whose window fits
    and starts with the signature, is located by the fallback loop: the
    header is bytes [5*2048, 5*2048+256) and the mode flag is [false]. *)
Theorem stripped_fallback_sector5 (data : bytes) :
  slice data 0 12 = sync_pattern →
  (∀ sector, 0 ≤ sector < 16 →
     sector * 2352 + 16 + 2048 ≤ len data →
     slice data (sector * 2352 + 16) (sector * 2352 + 32) ≠ SATURN_MAGIC) →
  5 * 2048 + 2048 ≤ len data →
  slice data (5 * 2048) (5 * 2048 + 16) = SATURN_MAGIC →
  (∀ sector, 0 ≤ sector < 5 →
     slice data (sector * 2048) (sector * 2048 + 16) ≠ SATURN_MAGIC) →
  find_saturn_header data =
  (Some (slice data (5 * 2048) (5 * 2048 + 256)), false).
Proof.
  intros S Hraw Hb M Hfirst.
  rewrite find_saturn_header_loops. cbv zeta.
  assert (detect_raw_mode data = true) as ->
    by (apply detect_raw_mode_true; split; [lia | assumption]).
  rewrite scan_sectors_none; cycle 1.
  { intros sector Hin%elem_of_range_16.
    apply has_magic_sector_false; [lia|].
    unfold sector_offset, SECTOR_SIZE_RAW, RAW_SECTOR_DATA_OFFSET.
    intros Hfit.
    replace (sector * 2352 + 16 + 16) with (sector * 2352 + 32) by lia.
    apply Hraw; lia. }
  change (range 16) with ([0; 1; 2; 3; 4] ++ 5 :: [6; 7; 8; 9; 10; 11; 12; 13; 14; 15]).
  rewrite scan_sectors_app, scan_sectors_none; cycle 1.
  { intros sector Hin.
    assert (0 ≤ sector < 5) as Hs.
    { repeat (apply elem_of_cons in Hin as [->|Hin]; [lia|]).
      apply elem_of_nil in Hin. contradiction. }
    apply has_magic_sector_false; [lia|].
    intros _. apply Hfirst. assumption. }
  rewrite (scan_sectors_hit data 5 _ false
             (slice data (5 * 2048) (5 * 2048 + 2048))).
  - rewrite slice_prefix by lia. reflexivity.
  - apply (read_sector_data_in_bounds data 5 false). exact Hb.
  - rewrite slice_prefix by lia. exact M.
Qed.

Lemma stripped_fallback_sector5_witness :
  find_saturn_header fallback_image =
  (Some (slice fallback_image (5 * 2048) (5 * 2048 + 256)), false).
Proof.
  apply (stripped_fallback_sector5 fallback_image).
  - vm_compute. reflexivity.
  - intros sector Hs Hfit.
    assert (len fallback_image = 12288) as L by (vm_compute; reflexivity).
    assert (sector = 0 ∨ sector = 1 ∨ sector = 2 ∨ sector = 3 ∨ sector = 4)
      as [->|[->|[->|[->| ->]]]] by lia;
      vm_compute; discriminate.
  - vm_compute. discriminate.
  - vm_compute. reflexivity.
  - intros sector Hs.
    assert (sector = 0 ∨ sector = 1 ∨ sector = 2 ∨ sector = 3 ∨ sector = 4)
      as [->|[->|[->|[->| ->]]]] by lia;
      vm_compute; discriminate.
Defined.

(** ** The header invariant *)

(** C4. Whenever [find_saturn_header] returns a header, the header is
    exactly 256 bytes long and its first 16 bytes are the signature
    "SEGA SEGASATURN ". *)
Theorem header_has_signature (data header : bytes) (is_raw : bool) :
  find_saturn_header data = (Some header, is_raw) →
  len header = 256 ∧ slice header 0 16 = SATURN_MAGIC.
Proof.
  rewrite find_saturn_header_loops. cbv zeta.
  assert (∀ sector, sector ∈ range 16 → 0 ≤ sector) as Hnn
    by (intros sector Hin%elem_of_range_16; lia).
  destruct (scan_sectors data (range 16) (detect_raw_mode data)) as [h|] eqn:E1.
  - intros [= <- _]. exact (scan_sectors_header _ _ _ _ Hnn E1).
  - destruct (detect_raw_mode data); [|discriminate].
    destruct (scan_sectors data (range 16) false) as [h|] eqn:E2;
      [|discriminate].
    intros [= <- _]. exact (scan_sectors_header _ _ _ _ Hnn E2).
Qed.

Lemma header_has_signature_witness :
  len (slice raw_image 16 272) = 256 ∧
  slice (slice raw_image 16 272) 0 16 = SATURN_MAGIC.
Proof.
  apply (header_has_signature raw_image (slice raw_image 16 272) true).
  vm_compute. reflexivity.
Defined.

(** ** Framing detection on short buffers *)

(** C5, as stated, fails: a buffer that is exactly the twelve sync bytes
    starts with the sync pattern and is reported as not raw, because
    [detect_raw_mode] answers [False] for every buffer shorter than 16
    bytes before it looks at the pattern. *)
Lemma sync_prefix_short_buffer_not_raw :
  slice short_sync_image 0 12 = sync_pattern ∧
  len short_sync_image = 12 ∧
  detect_raw_mode short_sync_image = false.
Proof. vm_compute. repeat split. Qed.

(** C5, amended. A buffer of at least 16 bytes whose first 12 bytes are the
    sync pattern is detected as raw; a buffer of at least 12 bytes whose
    first 12 bytes are anything else is detected as stripped. *)
Theorem detect_raw_mode_sync (data : bytes) :
  (16 ≤ len data → slice data 0 12 = sync_pattern →
   detect_raw_mode data = true) ∧
  (12 ≤ len data → slice data 0 12 ≠ sync_pattern →
   detect_raw_mode data = false).
Proof.
  split.
  - intros Hl S. apply detect_raw_mode_true. split; assumption.
  - intros _ S. apply not_true_iff_false.
    intros [_ S']%detect_raw_mode_true. exact (S S').
Qed.

Lemma detect_raw_mode_sync_witness :
  detect_raw_mode raw_image = true ∧ detect_raw_mode stripped_image = false.
Proof.
  split.
  - apply (proj1 (detect_raw_mode_sync raw_image)).
    + vm_compute. discriminate.
    + vm_compute. reflexivity.
  - apply (proj2 (detect_raw_mode_sync stripped_image)).
    + vm_compute. discriminate.
    + vm_compute. discriminate.
Defined.

(** ** Truncated windows *)

(** Sectors whose window does not fit in the buffer can be dropped from a
    loop's candidates without changing what the loop returns. *)
Lemma scan_sectors_fitting (data : bytes) (l : list Z) (raw_mode : bool) :
  scan_sectors data
    (filter (λ sector, sector_offset sector raw_mode + 2048 ≤ len data) l)
    raw_mode =
  scan_sectors data l raw_mode.
Proof.
  induction l as [|sector l IH]; [reflexivity|].
  rewrite filter_cons. case_decide as Hfit.
  - simpl. rewrite IH. reflexivity.
  - rewrite IH. symmetry. apply scan_sectors_skip.
    rewrite read_sector_data_truncated by lia. reflexivity.
Qed.

(** C6. If the 2048-byte window of a sector (at [sector*2352+16] in raw
    mode, at [sector*2048] in stripped mode) would end past the buffer,
    [read_sector_data] returns [None]; the signature test fails on it, a
    loop over candidate sectors gives the result it gives without that
    sector, and the whole search is the search over the sectors 0..15 whose
    window fits. *)
Theorem truncated_sector_skipped (data : bytes) (sector : Z) (raw_mode : bool) :
  sector_offset sector raw_mode + 2048 > len data →
  read_sector_data data sector raw_mode = None ∧
  has_magic (read_sector_data data sector raw_mode) = false ∧
  (∀ before rest,
     scan_sectors data (before ++ sector :: rest) raw_mode =
     scan_sectors data (before ++ rest) raw_mode) ∧
  find_saturn_header data =
    (let fitting mode :=
       filter (λ s, sector_offset s mode + 2048 ≤ len data) (range 16) in
     let is_raw := detect_raw_mode data in
     match scan_sectors data (fitting is_raw) is_raw with
     | Some header => (Some header, is_raw)
     | None =>
         if is_raw then
           match scan_sectors data (fitting false) false with
           | Some header => (Some header, false)
           | None => (None, false)
           end
         else (None, false)
     end).
Proof.
  intros Hcut.
  pose proof (read_sector_data_truncated data sector raw_mode Hcut) as E.
  split; [exact E|]. split; [rewrite E; reflexivity|]. split.
  - intros before rest. rewrite !scan_sectors_app.
    rewrite scan_sectors_skip by (rewrite E; reflexivity). reflexivity.
  - cbv beta zeta. rewrite !scan_sectors_fitting.
    apply find_saturn_header_loops.
Qed.

Lemma truncated_sector_skipped_witness :
  read_sector_data truncated_image 1 true = None ∧
  find_saturn_header truncated_image =
  (Some (slice truncated_image 2048 2304), false).
Proof.
  pose proof (truncated_sector_skipped truncated_image 1 true) as H.
  destruct H as (Hnone & _ & _ & Hfind); [vm_compute; reflexivity|].
  split; [exact Hnone|].
  rewrite Hfind. vm_compute. reflexivity.
Defined.

(** ** Replacement decoding *)

Lemma decode_ascii_replace (b : bytes) :
  decode_ascii replace b = Ok (replaced <$> b).
Proof.
  induction b as [|x b IH]; [reflexivity|].
  simpl. rewrite IH. unfold replaced.
  destruct (Byte.to_N x <? 128)%N; reflexivity.
Qed.

Lemma replaced_high (x : byte) :
  (0x80 ≤ Byte.to_N x)%N ↔ replaced x = REPLACEMENT.
Proof.
  unfold replaced, REPLACEMENT.
  pose proof (Byte.to_N_bounded x) as Hx.
  destruct (N.ltb_spec (Byte.to_N x) 128); split; try lia; try reflexivity.
Qed.

(** ** The peripheral field *)

Lemma keep_code_is_code (char : uchar) : keep_code char = bool_decide (is_code char).
Proof.
  symmetry. unfold keep_code.
  destruct (decide (char = chr " ")) as [Es|Es];
    [rewrite (bool_decide_eq_true_2 _ Es) | rewrite (bool_decide_eq_false_2 _ Es)];
    simpl.
  { apply bool_decide_eq_false_2. intros [H _]. exact (H Es). }
  destruct (decide (char = 0%N)) as [Ez|Ez];
    [rewrite (bool_decide_eq_true_2 _ Ez) | rewrite (bool_decide_eq_false_2 _ Ez)];
    simpl.
  { apply bool_decide_eq_false_2. intros (_ & H & _). exact (H Ez). }
  destruct (isprintable char) eqn:Ep.
  - apply bool_decide_eq_true_2. unfold is_code. rewrite Ep.
    repeat split; assumption.
  - apply bool_decide_eq_false_2. unfold is_code. rewrite Ep.
    intros (_ & _ & []).
Qed.

Lemma collect_codes_acc (text : str) (codes : list uchar) :
  fold_left
    (λ codes char, if keep_code char then codes ++ [char] else codes)
    text codes =
  codes ++ filter is_code text.
Proof.
  revert codes. induction text as [|char text IH]; intros codes;
    cbn [fold_left].
  - rewrite filter_nil, app_nil_r. reflexivity.
  - rewrite IH, filter_cons, keep_code_is_code.
    destruct (decide (is_code char)) as [Hc|Hc].
    + rewrite bool_decide_eq_true_2 by assumption.
      rewrite <- app_assoc. reflexivity.
    + rewrite bool_decide_eq_false_2 by assumption. reflexivity.
Qed.

Lemma collect_codes_filter (text : str) :
  collect_codes text = filter is_code text.
Proof. apply (collect_codes_acc text []). Qed.

Lemma extract_peripheral_codes_replace (header : bytes) :
  extract_peripheral_codes header =
  let text := replaced <$> slice header 0x50 0x60 in
  Ok (text, filter is_code text).
Proof.
  unfold extract_peripheral_codes, extract_peripheral_codes_with.
  cbv zeta. rewrite decode_ascii_replace. simpl.
  rewrite collect_codes_filter. reflexivity.
Qed.

Lemma len_fmap {A B} (f : A → B) (l : list A) : len (f <$> l) = len l.
Proof. unfold len. rewrite length_fmap. reflexivity. Qed.

(** C7. For a 256-byte header, [extract_peripheral_codes] decodes the 16
    bytes at 0x50..0x5F and returns, as codes, exactly the characters of the
    decoded text that are not a space, not a null character and printable,
    in their order and with their repetitions; there are at most 16 of
    them. The field "JAMK" followed by twelve spaces gives J, A, M, K. *)
Theorem peripheral_codes_filtered (header : bytes) :
  len header = 256 →
  ∃ text codes,
    decode_ascii replace (slice header 0x50 0x60) = Ok text ∧
    extract_peripheral_codes header = Ok (text, codes) ∧
    len text = 16 ∧
    codes = filter is_code text ∧
    len codes ≤ 16 ∧
    (slice header 0x50 0x60 = jamk_field →
     codes = [chr "J"; chr "A"; chr "M"; chr "K"]).
Proof.
  intros Hl.
  exists (replaced <$> slice header 0x50 0x60).
  exists (filter is_code (replaced <$> slice header 0x50 0x60)).
  assert (len (replaced <$> slice header 0x50 0x60) = 16) as Ht
    by (rewrite len_fmap, len_slice; lia).
  split; [apply decode_ascii_replace|].
  split; [apply extract_peripheral_codes_replace|].
  split; [exact Ht|]. split; [reflexivity|]. split.
  - unfold len in *.
    pose proof (length_filter is_code (replaced <$> slice header 0x50 0x60)).
    lia.
  - intros ->. vm_compute. reflexivity.
Qed.

Lemma peripheral_codes_filtered_witness :
  ∃ text codes,
    decode_ascii replace (slice jamk_header 0x50 0x60) = Ok text ∧
    extract_peripheral_codes jamk_header = Ok (text, codes) ∧
    len text = 16 ∧
    codes = filter is_code text ∧
    len codes ≤ 16 ∧
    (slice jamk_header 0x50 0x60 = jamk_field →
     codes = [chr "J"; chr "A"; chr "M"; chr "K"]).
Proof.
  apply (peripheral_codes_filtered jamk_header).
  vm_compute. reflexivity.
Defined.

(** ** Descriptions *)

Lemma describe_codes_acc (codes : list uchar) (descriptions : list str) :
  fold_left
    (λ descriptions code,
       match PERIPHERAL_CODES !! code with
       | Some name => descriptions ++ [name]
       | None => descriptions ++ [unknown code]
       end)
    codes descriptions =
  descriptions ++ (describe <$> codes).
Proof.
  revert descriptions.
  induction codes as [|code codes IH]; intros descriptions; cbn [fold_left].
  - rewrite fmap_nil, app_nil_r. reflexivity.
  - rewrite IH, fmap_cons, (cons_middle (describe code)), app_assoc.
    f_equal. unfold describe.
    destruct (PERIPHERAL_CODES !! code); reflexivity.
Qed.

Lemma describe_codes_fmap (codes : list uchar) :
  describe_codes codes = describe <$> codes.
Proof. apply (describe_codes_acc codes []). Qed.

Lemma known_codes_catalog (code : uchar) :
  code ∈ known_codes ↔ is_Some (PERIPHERAL_CODES !! code).
Proof.
  unfold PERIPHERAL_CODES.
  rewrite <- not_eq_None_Some, <- not_elem_of_list_to_map.
  split; [intros H Hn; exact (Hn H) | apply dec_stable].
Qed.

(** C8. The description of a list of codes is the ", "-joined list of one
    description per code, in order: the catalog's name when the code is one
    of J, A, E, M, K, S, T, G, W, C, D, X, Q, F, R, P (exactly the keys of the
    catalog), and "Unknown(<code>)" otherwise. Codes J, Z give
    "Control Pad, Unknown(Z)". The function is total. *)
Theorem descriptions_from_catalog (self : ScanResult) :
  get_human_readable_peripherals self =
    join (lit ", ") (describe <$> peripheral_codes self) ∧
  (∀ code, code ∈ known_codes →
     ∃ name, PERIPHERAL_CODES !! code = Some name ∧ describe code = name) ∧
  (∀ code, code ∉ known_codes →
     PERIPHERAL_CODES !! code = None ∧
     describe code = lit "Unknown(" ++ [code] ++ lit ")") ∧
  (peripheral_codes self = [chr "J"; chr "Z"] →
   get_human_readable_peripherals self = lit "Control Pad, Unknown(Z)").
Proof.
  split; [|split; [|split]].
  - unfold get_human_readable_peripherals. cbv zeta.
    rewrite describe_codes_fmap. reflexivity.
  - intros code [name E]%known_codes_catalog. exists name.
    split; [exact E|]. unfold describe. rewrite E. reflexivity.
  - intros code Hn.
    assert (PERIPHERAL_CODES !! code = None) as E.
    { apply eq_None_not_Some. intros H%known_codes_catalog. exact (Hn H). }
    split; [exact E|]. unfold describe. rewrite E. reflexivity.
  - intros E. unfold get_human_readable_peripherals. rewrite E.
    vm_compute. reflexivity.
Qed.

Lemma descriptions_from_catalog_witness :
  get_human_readable_peripherals
    {| filepath := lit "game.iso"; filename := lit "game.iso";
       success := true; skipped := false; skip_reason := [];
       peripheral_raw := lit "JZ              ";
       peripheral_codes := [chr "J"; chr "Z"];
       game_title := lit "GAME"; version := lit "V1.000";
       product_number := lit "GS-0000"; area_codes := lit "JTUE" |} =
  lit "Control Pad, Unknown(Z)".
Proof.
  apply descriptions_from_catalog. reflexivity.
Defined.

(** ** Decoding never raises *)

Lemma extract_game_info_replace (header : bytes) :
  extract_game_info header =
  Ok (rstrip (replaced <$> slice header 0x60 (0x60 + 112)),
      rstrip (replaced <$> slice header 0x2A (0x2A + 6)),
      rstrip (replaced <$> slice header 0x20 (0x20 + 10)),
      rstrip (replaced <$> slice header 0x40 (0x40 + 16))).
Proof.
  unfold extract_game_info, extract_game_info_with. cbv zeta.
  rewrite !decode_ascii_replace. reflexivity.
Qed.

(** One raising decode call blanks the four fields. *)
Lemma extract_game_info_with_raise (decode : bytes → exc str) (header : bytes) e :
  decode (slice header 0x60 (0x60 + 112)) = Raise e ∨
  decode (slice header 0x2A (0x2A + 6)) = Raise e ∨
  decode (slice header 0x20 (0x20 + 10)) = Raise e ∨
  decode (slice header 0x40 (0x40 + 16)) = Raise e →
  extract_game_info_with decode header = Ok ([], [], [], []).
Proof.
  intros H. unfold extract_game_info_with. cbv zeta.
  unfold OFFSET_GAME_TITLE, OFFSET_VERSION, OFFSET_PRODUCT_NUM,
    OFFSET_AREA_CODES.
  destruct (decode (slice header 0x60 (0x60 + 112))) as [t|e1]; [|reflexivity].
  destruct (decode (slice header 0x2A (0x2A + 6))) as [v|e2]; [|reflexivity].
  destruct (decode (slice header 0x20 (0x20 + 10))) as [p|e3]; [|reflexivity].
  destruct (decode (slice header 0x40 (0x40 + 16))) as [a|e4]; [|reflexivity].
  destruct H as [H|[H|[H|H]]]; discriminate.
Qed.

Lemma extract_peripheral_codes_with_raise
    (decode : bytes → exc str) (header : bytes) e :
  decode (slice header 0x50 (0x50 + 16)) = Raise e →
  extract_peripheral_codes_with decode header =
  Ok (hex (slice header 0x50 (0x50 + 16)),
      collect_codes (hex (slice header 0x50 (0x50 + 16)))).
Proof.
  intros H. unfold extract_peripheral_codes_with. cbv zeta.
  unfold OFFSET_PERIPHERAL. rewrite H. reflexivity.
Qed.

(** C9. Field decoding never fails. [extract_game_info] and
    [extract_peripheral_codes] return a value on every header; the scan of a
    buffer returns a result that is either skipped with "No Saturn header
    found" or successful with the decoded fields of the located header. With
    any decoder in place of the replacing one: if decoding the title, the
    version, the product number or the area codes raises, the four fields
    are all the empty string; if decoding the peripheral field raises, the
    raw peripheral text is the lowercase hexadecimal dump of its bytes,
    whatever happens to the other four. *)
Theorem field_decoding_never_fails :
  (∀ header, ∃ info periph,
     extract_game_info header = Ok info ∧
     extract_peripheral_codes header = Ok periph) ∧
  (∀ result data, ∃ result',
     scan_data result data = Ok result' ∧
     match fst (find_saturn_header data) with
     | None =>
         skipped result' = true ∧
         skip_reason result' = lit "No Saturn header found"
     | Some header =>
         success result' = true ∧
         extract_peripheral_codes header =
           Ok (peripheral_raw result', peripheral_codes result') ∧
         extract_game_info header =
           Ok (game_title result', version result', product_number result',
               area_codes result')
     end) ∧
  (∀ (decode : bytes → exc str) header e,
     decode (slice header 0x60 (0x60 + 112)) = Raise e ∨
     decode (slice header 0x2A (0x2A + 6)) = Raise e ∨
     decode (slice header 0x20 (0x20 + 10)) = Raise e ∨
     decode (slice header 0x40 (0x40 + 16)) = Raise e →
     extract_game_info_with decode header = Ok ([], [], [], [])) ∧
  (∀ (decode : bytes → exc str) header e,
     decode (slice header 0x50 (0x50 + 16)) = Raise e →
     ∃ codes,
       extract_peripheral_codes_with decode header =
       Ok (hex (slice header 0x50 (0x50 + 16)), codes)).
Proof.
  split; [|split; [|split]].
  - intros header. eexists _, _. split.
    + apply extract_game_info_replace.
    + apply extract_peripheral_codes_replace.
  - intros result data. unfold scan_data.
    destruct (find_saturn_header data) as [[header|] is_raw]; simpl fst.
    + rewrite extract_peripheral_codes_replace, extract_game_info_replace.
      eexists. split; [reflexivity|]. simpl.
      repeat split;
        first [apply extract_peripheral_codes_replace
              | apply extract_game_info_replace].
    + eexists. split; [reflexivity|]. simpl. repeat split.
  - apply extract_game_info_with_raise.
  - intros decode header e H. eexists.
    apply (extract_peripheral_codes_with_raise decode header e H).
Qed.

Lemma field_decoding_never_fails_witness :
  extract_game_info_with (decode_ascii strict) high_title_header =
    Ok ([], [], [], []) ∧
  fst <$> extract_peripheral_codes_with (decode_ascii strict) high_byte_header =
    Ok (lit "4aff2020202020202020202020202020").
Proof.
  destruct field_decoding_never_fails as (_ & _ & Hinfo & Hperiph). split.
  - apply (Hinfo (decode_ascii strict) high_title_header UnicodeDecodeError).
    left. vm_compute. reflexivity.
  - destruct (Hperiph (decode_ascii strict) high_byte_header UnicodeDecodeError)
      as [codes ->]; vm_compute; reflexivity.
Defined.

(** ** Non-ASCII bytes in the peripheral field *)

Lemma is_code_REPLACEMENT : is_code REPLACEMENT.
Proof. vm_compute. repeat split; discriminate. Qed.

Lemma replaced_low (x : byte) :
  (Byte.to_N x < 0x80)%N → replaced x ≠ REPLACEMENT.
Proof.
  intros Hx E%replaced_high. lia.
Qed.

(** Replacement characters among the codes are the high bytes of the
    field, one for one. *)
Lemma replacement_count (field : bytes) :
  length (filter (λ c, c = REPLACEMENT) (filter is_code (replaced <$> field))) =
  length (filter (λ x, (0x80 ≤ Byte.to_N x)%N) field).
Proof.
  induction field as [|x field IH]; [reflexivity|].
  rewrite fmap_cons, (filter_cons _ x).
  destruct (decide (0x80 ≤ Byte.to_N x)%N) as [Hx|Hx].
  - pose proof (proj1 (replaced_high x) Hx) as E. rewrite E.
    rewrite filter_cons, decide_True by exact is_code_REPLACEMENT.
    rewrite filter_cons, decide_True by reflexivity.
    simpl. rewrite IH. reflexivity.
  - assert (replaced x ≠ REPLACEMENT) as Hn by (apply replaced_low; lia).
    rewrite filter_cons.
    destruct (decide (is_code (replaced x))); [|exact IH].
    rewrite filter_cons, decide_False by exact Hn. exact IH.
Qed.

Lemma slice_lookup (header : bytes) (lo hi : Z) (i : nat) :
  0 ≤ lo ≤ hi → hi ≤ len header → lo ≤ Z.of_nat i < hi →
  slice header lo hi !! (i - Z.to_nat lo)%nat = header !! i.
Proof.
  intros Hlo Hhi Hi. rewrite slice_in_range by assumption.
  rewrite lookup_take_lt, lookup_drop by lia. f_equal. lia.
Qed.

(** C10. A byte of the peripheral field (0x50..0x5F of a 256-byte header)
    that is 0x80 or above is decoded to U+FFFD; U+FFFD is printable, not a
    space and not a null, so it is among the codes, once for every such
    byte, and its description is "Unknown(" followed by U+FFFD and ")",
    which appears among the descriptions of the codes. *)
Theorem high_byte_is_unknown_code (header : bytes) (i : nat) (x : byte) :
  len header = 256 →
  (0x50 ≤ i < 0x60)%nat →
  header !! i = Some x →
  (0x80 ≤ Byte.to_N x)%N →
  ∃ text codes,
    extract_peripheral_codes header = Ok (text, codes) ∧
    text !! (i - 0x50)%nat = Some REPLACEMENT ∧
    is_code REPLACEMENT ∧
    REPLACEMENT ∈ codes ∧
    length (filter (λ c, c = REPLACEMENT) codes) =
      length (filter (λ b, (0x80 ≤ Byte.to_N b)%N) (slice header 0x50 0x60)) ∧
    describe REPLACEMENT = lit "Unknown(" ++ [REPLACEMENT] ++ lit ")" ∧
    lit "Unknown(" ++ [REPLACEMENT] ++ lit ")" ∈ describe_codes codes.
Proof.
  intros Hl Hi Hx Hhigh.
  exists (replaced <$> slice header 0x50 0x60).
  exists (filter is_code (replaced <$> slice header 0x50 0x60)).
  assert ((replaced <$> slice header 0x50 0x60) !! (i - 0x50)%nat
          = Some REPLACEMENT) as Ht.
  { rewrite list_lookup_fmap.
    change (i - 0x50)%nat with (i - Z.to_nat 0x50)%nat.
    rewrite (slice_lookup header 0x50 0x60 i) by lia.
    rewrite Hx. simpl. f_equal. apply replaced_high. exact Hhigh. }
  assert (REPLACEMENT ∈ filter is_code (replaced <$> slice header 0x50 0x60))
    as Hin.
  { apply list_elem_of_filter. split; [exact is_code_REPLACEMENT|].
    eapply list_elem_of_lookup_2. exact Ht. }
  split; [apply extract_peripheral_codes_replace|].
  split; [exact Ht|]. split; [exact is_code_REPLACEMENT|].
  split; [exact Hin|]. split; [apply replacement_count|].
  split; [reflexivity|].
  rewrite describe_codes_fmap.
  apply (list_elem_of_fmap_2' describe _ REPLACEMENT); [exact Hin | reflexivity].
Qed.

Lemma high_byte_is_unknown_code_witness :
  ∃ text codes,
    extract_peripheral_codes high_byte_header = Ok (text, codes) ∧
    text !! (81 - 0x50)%nat = Some REPLACEMENT ∧
    is_code REPLACEMENT ∧
    REPLACEMENT ∈ codes ∧
    length (filter (λ c, c = REPLACEMENT) codes) =
      length (filter (λ b, (0x80 ≤ Byte.to_N b)%N)
                (slice high_byte_header 0x50 0x60)) ∧
    describe REPLACEMENT = lit "Unknown(" ++ [REPLACEMENT] ++ lit ")" ∧
    lit "Unknown(" ++ [REPLACEMENT] ++ lit ")" ∈ describe_codes codes.
Proof.
  apply (high_byte_is_unknown_code high_byte_header 81 xff).
  - vm_compute. reflexivity.
  - lia.
  - vm_compute. reflexivity.
  - vm_compute. discriminate.
Defined.

(** ** End to end *)

(** A stripped image whose header declares J, A, M, K is scanned to the four
    codes and their descriptions. *)
Example scan_jamk_image :
  ∃ result,
    scan_data (ScanResult_init (lit "game.iso") (lit "game.iso"))
      (jamk_header ++ zeros 1792) = Ok result ∧
    success result = true ∧
    peripheral_codes result = [chr "J"; chr "A"; chr "M"; chr "K"] ∧
    game_title result = lit "G" ++ replicate 111 0%N ∧
    get_human_readable_peripherals result =
      lit "Control Pad, Analog Controller, Mouse, Keyboard".
Proof. eexists. split; [vm_compute; reflexivity|]. repeat split. Qed.

(** The same with J, Z: the unknown code is reported, not rejected. *)
Example scan_jz_image :
  ∃ result,
    scan_data (ScanResult_init (lit "game.iso") (lit "game.iso"))
      (jz_header ++ zeros 1792) = Ok result ∧
    peripheral_codes result = [chr "J"; chr "Z"] ∧
    get_human_readable_peripherals result = lit "Control Pad, Unknown(Z)".
Proof. eexists. split; [vm_compute; reflexivity|]. repeat split. Qed.

(** A buffer of 4096 zero bytes holds no header. *)
Example scan_zero_image :
  find_saturn_header (zeros 4096) = (None, false).
Proof. vm_compute. reflexivity. Qed.

(** * Further properties of the locator *)

Lemma has_magic_sector_false_iff (data : bytes) (sector : Z) (raw_mode : bool) :
  0 ≤ sector →
  has_magic (read_sector_data data sector raw_mode) = false ↔
  (sector_offset sector raw_mode + 2048 ≤ len data →
   slice data (sector_offset sector raw_mode)
     (sector_offset sector raw_mode + 16) ≠ SATURN_MAGIC).
Proof.
  intros Hs. split; [|apply has_magic_sector_false; assumption].
  intros E Hfit. rewrite has_magic_window in E by assumption.
  apply bool_decide_eq_false in E. exact E.
Qed.

Lemma scan_sectors_None_iff (data : bytes) (l : list Z) (raw_mode : bool) :
  scan_sectors data l raw_mode = None ↔
  ∀ sector, sector ∈ l →
    has_magic (read_sector_data data sector raw_mode) = false.
Proof.
  split; [|apply scan_sectors_none].
  induction l as [|sector l IH]; intros E s Hin.
  - apply elem_of_nil in Hin. contradiction.
  - simpl in E. destruct (has_magic _) eqn:M.
    + apply has_magic_true in M as (w & Ew & _). rewrite Ew in E.
      discriminate.
    + apply elem_of_cons in Hin as [->|Hin]; [exact M | exact (IH E s Hin)].
Qed.

(** A loop over consecutive sectors stops at the first one that passes. *)
Lemma scan_sectors_first (data : bytes) (raw_mode : bool) (n : nat) :
  ∀ a header,
    scan_sectors data (seqZ a (Z.of_nat n)) raw_mode = Some header →
    ∃ sector s,
      a ≤ sector < a + Z.of_nat n ∧
      read_sector_data data sector raw_mode = Some s ∧
      slice s 0 16 = SATURN_MAGIC ∧ header = slice s 0 256 ∧
      ∀ earlier, a ≤ earlier < sector →
        has_magic (read_sector_data data earlier raw_mode) = false.
Proof.
  induction n as [|n IH]; intros a header; [discriminate|].
  rewrite seqZ_cons by lia.
  replace (Z.pred (Z.of_nat (S n))) with (Z.of_nat n) by lia.
  simpl. destruct (has_magic _) eqn:M.
  - apply has_magic_true in M as (s & E & Hs). rewrite E. intros [= <-].
    exists a, s. repeat split; try assumption; lia.
  - intros (sector & s & Hr & E & Hs & Hh & Hfirst)%IH.
    exists sector, s. repeat split; try assumption; try lia.
    intros earlier He.
    destruct (decide (earlier = a)) as [->|Hne]; [exact M|].
    apply Hfirst. lia.
Qed.

Lemma sector_offset_mono (s1 s2 : Z) (raw_mode : bool) :
  s1 ≤ s2 → sector_offset s1 raw_mode ≤ sector_offset s2 raw_mode.
Proof.
  unfold sector_offset, SECTOR_SIZE_RAW, RAW_SECTOR_DATA_OFFSET,
    SECTOR_SIZE_MODE1. destruct raw_mode; lia.
Qed.

Lemma scan_sectors_range_first (data header : bytes) (raw_mode : bool) :
  scan_sectors data (range 16) raw_mode = Some header →
  ∃ sector, 0 ≤ sector < 16 ∧
    sector_offset sector raw_mode + 2048 ≤ len data ∧
    slice data (sector_offset sector raw_mode)
      (sector_offset sector raw_mode + 16) = SATURN_MAGIC ∧
    header = slice data (sector_offset sector raw_mode)
               (sector_offset sector raw_mode + 256) ∧
    ∀ earlier, 0 ≤ earlier < sector →
      slice data (sector_offset earlier raw_mode)
        (sector_offset earlier raw_mode + 16) ≠ SATURN_MAGIC.
Proof.
  intros (sector & s & Hr & E & Hs & -> & Hfirst)%scan_sectors_first.
  apply read_sector_data_Some in E as [Hfit ->].
  pose proof (sector_offset_nonneg sector raw_mode ltac:(lia)) as Ho.
  rewrite slice_prefix in Hs |- * by lia.
  exists sector. repeat split; try assumption; try lia.
  intros earlier He.
  pose proof (sector_offset_mono earlier sector raw_mode ltac:(lia)).
  apply (has_magic_sector_false_iff data earlier raw_mode); [lia| |lia].
  apply Hfirst. lia.
Qed.

(** X1. A header that [find_saturn_header] returns is the first 256 bytes
    of the window of some sector 0..15 under the framing it reports: the
    window fits in the buffer and starts with the signature, and no sector
    before it does under that framing. The raw flag is only ever set on a
    buffer that starts with the sync pattern. *)
Theorem found_header_first_match (data header : bytes) (is_raw : bool) :
  find_saturn_header data = (Some header, is_raw) →
  (is_raw = true → detect_raw_mode data = true) ∧
  ∃ sector, 0 ≤ sector < 16 ∧
    sector_offset sector is_raw + 2048 ≤ len data ∧
    slice data (sector_offset sector is_raw)
      (sector_offset sector is_raw + 16) = SATURN_MAGIC ∧
    header = slice data (sector_offset sector is_raw)
               (sector_offset sector is_raw + 256) ∧
    ∀ earlier, 0 ≤ earlier < sector →
      slice data (sector_offset earlier is_raw)
        (sector_offset earlier is_raw + 16) ≠ SATURN_MAGIC.
Proof.
  rewrite find_saturn_header_loops. cbv zeta.
  destruct (scan_sectors data (range 16) (detect_raw_mode data)) as [h|] eqn:E1.
  - intros [= <- <-]. split; [tauto|].
    apply scan_sectors_range_first. exact E1.
  - destruct (detect_raw_mode data); [|discriminate].
    destruct (scan_sectors data (range 16) false) as [h|] eqn:E2;
      [|discriminate].
    intros [= <- <-]. split; [discriminate|].
    apply scan_sectors_range_first. exact E2.
Qed.

Lemma found_header_first_match_witness :
  ∃ sector, 0 ≤ sector < 16 ∧
    sector_offset sector false + 2048 ≤ len fallback_image ∧
    slice fallback_image (sector_offset sector false)
      (sector_offset sector false + 16) = SATURN_MAGIC ∧
    slice fallback_image 10240 10496 =
      slice fallback_image (sector_offset sector false)
        (sector_offset sector false + 256) ∧
    ∀ earlier, 0 ≤ earlier < sector →
      slice fallback_image (sector_offset earlier false)
        (sector_offset earlier false + 16) ≠ SATURN_MAGIC.
Proof.
  apply (found_header_first_match fallback_image
           (slice fallback_image 10240 10496) false).
  vm_compute. reflexivity.
Defined.

Lemma scan_range_None_iff (data : bytes) (raw_mode : bool) :
  scan_sectors data (range 16) raw_mode = None ↔
  ∀ sector, 0 ≤ sector < 16 →
    sector_offset sector raw_mode + 2048 ≤ len data →
    slice data (sector_offset sector raw_mode)
      (sector_offset sector raw_mode + 16) ≠ SATURN_MAGIC.
Proof.
  rewrite scan_sectors_None_iff. split.
  - intros H sector Hs.
    apply has_magic_sector_false_iff; [lia|].
    apply H, elem_of_range_16, Hs.
  - intros H sector Hs%elem_of_range_16.
    apply has_magic_sector_false_iff; [lia|]. apply H, Hs.
Qed.

(** X2. [find_saturn_header] finds no header exactly when no stripped
    sector 0..15 whose window fits starts with the signature and, on a
    buffer detected as raw, no raw sector 0..15 whose window fits does
    either. The flag returned with [None] is always [False]. *)
Theorem no_header_iff (data : bytes) :
  (fst (find_saturn_header data) = None ↔
   ∀ sector, 0 ≤ sector < 16 →
     (sector * 2048 + 2048 ≤ len data →
      slice data (sector * 2048) (sector * 2048 + 16) ≠ SATURN_MAGIC) ∧
     (detect_raw_mode data = true →
      sector * 2352 + 16 + 2048 ≤ len data →
      slice data (sector * 2352 + 16) (sector * 2352 + 16 + 16)
        ≠ SATURN_MAGIC)) ∧
  (fst (find_saturn_header data) = None →
   snd (find_saturn_header data) = false).
Proof.
  rewrite find_saturn_header_loops. cbv zeta.
  pose proof (scan_range_None_iff data true) as Hraw.
  pose proof (scan_range_None_iff data false) as Hstr.
  unfold sector_offset, SECTOR_SIZE_RAW, RAW_SECTOR_DATA_OFFSET,
    SECTOR_SIZE_MODE1 in Hraw, Hstr.
  destruct (detect_raw_mode data) eqn:D.
  - destruct (scan_sectors data (range 16) true) as [h|] eqn:E1.
    + split; [|discriminate]. split; [discriminate|]. intros H.
      assert (Some h = None) as [=]. apply Hraw. intros s Hs. apply H; auto.
    + destruct (scan_sectors data (range 16) false) as [h|] eqn:E2.
      * split; [|discriminate]. split; [discriminate|]. intros H.
        assert (Some h = None) as [=]. apply Hstr. intros s Hs. apply H; auto.
      * split; [|reflexivity]. split; [|reflexivity]. intros _ s Hs.
        split; [apply Hstr | intros _; apply Hraw]; auto.
  - destruct (scan_sectors data (range 16) false) as [h|] eqn:E2.
    + split; [|discriminate]. split; [discriminate|]. intros H.
      assert (Some h = None) as [=]. apply Hstr. intros s Hs. apply H; auto.
    + split; [|reflexivity]. split; [|reflexivity]. intros _ s Hs.
      split; [apply Hstr; auto | discriminate].
Qed.

Lemma no_header_iff_witness :
  fst (find_saturn_header (zeros 4096)) = None ∧
  snd (find_saturn_header (zeros 4096)) = false.
Proof.
  pose proof (no_header_iff (zeros 4096)) as [Hiff Hflag].
  assert (fst (find_saturn_header (zeros 4096)) = None) as Hnone.
  { apply Hiff. intros sector Hs.
    assert (len (zeros 4096) = 4096) as L by (vm_compute; reflexivity).
    split.
    - intros Hfit.
      assert (sector = 0 ∨ sector = 1) as [->| ->] by lia;
        vm_compute; discriminate.
    - intros D. vm_compute in D. discriminate. }
  split; [exact Hnone | exact (Hflag Hnone)].
Defined.

(** X3. Raw framing takes precedence: on a buffer detected as raw, a raw
    sector 0..15 whose window fits and starts with the signature makes
    [find_saturn_header] return a header tagged raw, whatever the stripped
    reading of the buffer holds. *)
Theorem raw_signature_found (data : bytes) (sector : Z) :
  detect_raw_mode data = true →
  0 ≤ sector < 16 →
  sector * 2352 + 16 + 2048 ≤ len data →
  slice data (sector * 2352 + 16) (sector * 2352 + 16 + 16) = SATURN_MAGIC →
  ∃ header, find_saturn_header data = (Some header, true).
Proof.
  intros D Hs Hfit M. rewrite find_saturn_header_loops. cbv zeta. rewrite D.
  destruct (scan_sectors data (range 16) true) as [h|] eqn:E; [eauto|].
  exfalso. eapply (proj1 (scan_range_None_iff data true) E sector Hs).
  - exact Hfit.
  - exact M.
Qed.

Lemma raw_signature_found_witness :
  ∃ header, find_saturn_header raw_image = (Some header, true).
Proof.
  apply (raw_signature_found raw_image 0).
  - vm_compute. reflexivity.
  - lia.
  - vm_compute. discriminate.
  - vm_compute. reflexivity.
Defined.

(** X4. A buffer shorter than one 2048-byte sector never holds a header:
    every window is past its end. *)
Theorem short_buffer_no_header (data : bytes) :
  len data < 2048 → find_saturn_header data = (None, false).
Proof.
  intros Hl. rewrite find_saturn_header_loops. cbv zeta.
  assert (∀ raw_mode, scan_sectors data (range 16) raw_mode = None) as Hn.
  { intros raw_mode. apply scan_range_None_iff. intros sector Hs Hfit.
    pose proof (sector_offset_nonneg sector raw_mode ltac:(lia)). lia. }
  rewrite !Hn. destruct (detect_raw_mode data); reflexivity.
Qed.

Lemma short_buffer_no_header_witness :
  find_saturn_header (take 2047 stripped_image) = (None, false).
Proof.
  apply (short_buffer_no_header (take 2047 stripped_image)).
  vm_compute. reflexivity.
Defined.

(** ** Reading a prefix of the file *)

Lemma slice_whole {A} (l : list A) (n : Z) : len l ≤ n → slice l 0 n = l.
Proof.
  intros Hn. unfold slice.
  assert (adjust_index 0 (len l) = 0) as ->
    by (apply adjust_index_in_range; unfold len; lia).
  assert (adjust_index n (len l) = len l) as ->.
  { unfold adjust_index. destruct (Z.ltb_spec n 0); unfold len in *; lia. }
  unfold len. rewrite drop_0, take_ge by lia. reflexivity.
Qed.

Lemma slice_of_prefix {A} (l : list A) (n a b : Z) :
  0 ≤ a ≤ b → b ≤ n → n ≤ len l →
  slice (slice l 0 n) a b = slice l a b.
Proof.
  intros Ha Hb Hn.
  assert (len (slice l 0 n) = n) as L by (rewrite len_slice; lia).
  rewrite (slice_in_range (slice l 0 n)) by lia.
  rewrite !(slice_in_range l) by lia.
  rewrite drop_0, !take_drop_commute, take_take. do 2 f_equal. lia.
Qed.

Lemma scan_sectors_ext (d1 d2 : bytes) (l : list Z) (raw_mode : bool) :
  (∀ sector, sector ∈ l →
     read_sector_data d1 sector raw_mode = read_sector_data d2 sector raw_mode) →
  scan_sectors d1 l raw_mode = scan_sectors d2 l raw_mode.
Proof.
  induction l as [|sector l IH]; intros H; [reflexivity|].
  simpl. rewrite (H sector) by left.
  rewrite IH by (intros s Hs; apply H; right; exact Hs). reflexivity.
Qed.

(** X5. The search looks at no byte past offset 15*2352+16+2048 = 37344:
    on the first [n] bytes of a buffer, for any [n] of at least 37344, it
    gives the same answer as on the whole buffer. The 65536 bytes
    [scan_file] reads are enough. *)
Theorem leading_bytes_suffice (data : bytes) (n : Z) :
  37344 ≤ n →
  find_saturn_header (slice data 0 n) = find_saturn_header data.
Proof.
  intros Hn.
  destruct (Z_le_gt_dec (len data) n) as [Hle|Hgt];
    [rewrite slice_whole by exact Hle; reflexivity|].
  assert (len (slice data 0 n) = n) as L by (rewrite len_slice; lia).
  assert (detect_raw_mode (slice data 0 n) = detect_raw_mode data) as D.
  { unfold detect_raw_mode. rewrite L, slice_of_prefix by lia.
    destruct (Z.ltb_spec n 16), (Z.ltb_spec (len data) 16); try lia.
    reflexivity. }
  assert (∀ raw_mode,
            scan_sectors (slice data 0 n) (range 16) raw_mode =
            scan_sectors data (range 16) raw_mode) as S.
  { intros raw_mode. apply scan_sectors_ext.
    intros sector Hs%elem_of_range_16.
    pose proof (sector_offset_nonneg sector raw_mode ltac:(lia)) as Ho.
    pose proof (sector_offset_mono sector 15 raw_mode ltac:(lia)) as Hm.
    assert (sector_offset 15 raw_mode ≤ 35296) as H15
      by (destruct raw_mode; vm_compute; discriminate).
    rewrite !read_sector_data_in_bounds by lia.
    rewrite slice_of_prefix by lia. reflexivity. }
  rewrite !find_saturn_header_loops. cbv zeta. rewrite D, !S. reflexivity.
Qed.

Lemma leading_bytes_suffice_witness :
  find_saturn_header (slice (raw_image ++ zeros 70000) 0 65536) =
  find_saturn_header (raw_image ++ zeros 70000).
Proof.
  apply (leading_bytes_suffice (raw_image ++ zeros 70000) 65536). lia.
Defined.

(** * Further properties of the decoder *)

Lemma is_code_replaced (x : byte) :
  is_code (replaced x) ↔
  (0x21 ≤ Byte.to_N x ≤ 0x7E)%N ∨ (0x80 ≤ Byte.to_N x)%N.
Proof.
  destruct (N.lt_ge_cases (Byte.to_N x) 0x80) as [Hlo|Hhi].
  - unfold replaced. destruct (N.ltb_spec (Byte.to_N x) 128); [|lia].
    unfold is_code, isprintable, REPLACEMENT.
    change (chr " ") with 32%N.
    destruct (N.leb_spec 32 (Byte.to_N x)), (N.leb_spec (Byte.to_N x) 126),
      (N.eqb_spec (Byte.to_N x) 65533); simpl; intuition lia.
  - rewrite (proj1 (replaced_high x) Hhi).
    split; [right; exact Hhi | intros _; exact is_code_REPLACEMENT].
Qed.

(** X6. What the codes are, byte by byte: a character is among the codes
    exactly when the peripheral field holds a byte 0x21..0x7E with that
    value, or the character is U+FFFD and the field holds a byte of 0x80 or
    above. Spaces, NUL and the other control bytes never give a code. *)
Theorem peripheral_code_membership (header : bytes) (text : str)
    (codes : list uchar) (c : uchar) :
  extract_peripheral_codes header = Ok (text, codes) →
  c ∈ codes ↔
  ∃ x, x ∈ slice header 0x50 0x60 ∧
    ((0x21 ≤ Byte.to_N x ≤ 0x7E)%N ∧ c = Byte.to_N x ∨
     (0x80 ≤ Byte.to_N x)%N ∧ c = REPLACEMENT).
Proof.
  rewrite extract_peripheral_codes_replace. cbv zeta. intros [= <- <-].
  rewrite list_elem_of_filter, list_elem_of_fmap. split.
  - intros [Hc (x & -> & Hx)]. exists x. split; [exact Hx|].
    apply is_code_replaced in Hc as [Hc|Hc].
    + left. split; [exact Hc|]. unfold replaced.
      destruct (N.ltb_spec (Byte.to_N x) 128); [reflexivity | lia].
    + right. split; [exact Hc|]. apply replaced_high. exact Hc.
  - intros (x & Hx & Hc).
    assert (c = replaced x) as ->.
    { destruct Hc as [[Hr ->]|[Hr ->]].
      - unfold replaced.
        destruct (N.ltb_spec (Byte.to_N x) 128); [reflexivity | lia].
      - symmetry. apply replaced_high. exact Hr. }
    split; [|eauto]. apply is_code_replaced.
    destruct Hc as [[Hr _]|[Hr _]]; [left | right]; exact Hr.
Qed.

Lemma peripheral_code_membership_witness :
  chr "M" ∈ [chr "J"; chr "A"; chr "M"; chr "K"] ↔
  ∃ x, x ∈ slice jamk_header 0x50 0x60 ∧
    ((0x21 ≤ Byte.to_N x ≤ 0x7E)%N ∧ chr "M" = Byte.to_N x ∨
     (0x80 ≤ Byte.to_N x)%N ∧ chr "M" = REPLACEMENT).
Proof.
  apply (peripheral_code_membership jamk_header (lit "JAMK            ")).
  vm_compute. reflexivity.
Defined.

(** ** Stripped text fields *)

Lemma rstrip_trimmed (s : str) : trimmed s (rstrip s).
Proof.
  induction s as [|c s [(ws & E & Hws) Hlast]].
  - split; [exists []; split; [reflexivity | constructor] | discriminate].
  - simpl. destruct (rstrip s) as [|r0 r] eqn:R.
    + simpl in E. subst s. destruct (isspace c) eqn:Hc.
      * split; [|discriminate]. exists (c :: ws).
        split; [reflexivity | constructor; assumption].
      * split; [exists ws; split; [reflexivity | assumption]|].
        intros c' [= <-]. exact Hc.
    + split.
      * exists ws. split; [rewrite E; reflexivity | assumption].
      * intros c' Hc'. apply Hlast. exact Hc'.
Qed.

Lemma len_rstrip (s : str) : len (rstrip s) ≤ len s.
Proof.
  destruct (rstrip_trimmed s) as [(ws & E & _) _].
  rewrite E at 2. unfold len. rewrite length_app. lia.
Qed.

Lemma len_slice_bound {A} (l : list A) (lo hi : Z) :
  0 ≤ lo ≤ hi → len (slice l lo hi) ≤ hi - lo.
Proof.
  intros H. unfold slice, adjust_index, len.
  rewrite length_take.
  destruct (Z.ltb_spec lo 0), (Z.ltb_spec hi 0); lia.
Qed.

(** X7. The four text fields of [extract_game_info] are the decoded bytes
    at 0x60 (112 bytes), 0x2A (6), 0x20 (10) and 0x40 (16) without their
    trailing whitespace: what is cut off is whitespace only, what is left
    does not end in whitespace, and the fields are at most 112, 6, 10 and
    16 characters long. *)
Theorem game_info_trimmed (header : bytes) (title ver product area : str) :
  extract_game_info header = Ok (title, ver, product, area) →
  trimmed (replaced <$> slice header 0x60 0xD0) title ∧
  trimmed (replaced <$> slice header 0x2A 0x30) ver ∧
  trimmed (replaced <$> slice header 0x20 0x2A) product ∧
  trimmed (replaced <$> slice header 0x40 0x50) area ∧
  len title ≤ 112 ∧ len ver ≤ 6 ∧ len product ≤ 10 ∧ len area ≤ 16.
Proof.
  rewrite extract_game_info_replace. intros [= <- <- <- <-].
  repeat split; try apply rstrip_trimmed;
    (etransitivity; [apply len_rstrip|]); rewrite len_fmap;
    (etransitivity; [apply len_slice_bound; lia|]); lia.
Qed.

Lemma game_info_trimmed_witness :
  trimmed (replaced <$> slice jamk_header 0x60 0xD0)
    (lit "G" ++ replicate 111 0%N) ∧
  trimmed (replaced <$> slice jamk_header 0x2A 0x30) (replicate 6 0%N) ∧
  trimmed (replaced <$> slice jamk_header 0x20 0x2A) (replicate 10 0%N) ∧
  trimmed (replaced <$> slice jamk_header 0x40 0x50) (replicate 16 0%N) ∧
  len (lit "G" ++ replicate 111 0%N) ≤ 112 ∧
  len (replicate 6 0%N : str) ≤ 6 ∧
  len (replicate 10 0%N : str) ≤ 10 ∧
  len (replicate 16 0%N : str) ≤ 16.
Proof.
  apply (game_info_trimmed jamk_header). vm_compute. reflexivity.
Defined.

(** * Further properties of the descriptions *)

Lemma describe_known (code : uchar) :
  code ∈ known_codes → ∃ name, PERIPHERAL_CODES !! code = Some name ∧ describe code = name.
Proof.
  intros [name E]%known_codes_catalog. exists name.
  split; [exact E|]. unfold describe. rewrite E. reflexivity.
Qed.

Lemma describe_unknown (code : uchar) :
  code ∉ known_codes → describe code = unknown code.
Proof.
  intros Hn. unfold describe.
  destruct (PERIPHERAL_CODES !! code) as [name|] eqn:E; [|reflexivity].
  exfalso. apply Hn, known_codes_catalog. eauto.
Qed.

Ltac each_known H :=
  unfold known_codes in H;
  repeat (apply elem_of_cons in H as [->|H]);
  [..| apply elem_of_nil in H; contradiction].

(** X8. No two codes share a description: the sixteen catalog names are
    pairwise different, none of them has the form "Unknown(c)", and
    "Unknown(c)" names its code. *)
Theorem describe_injective (c1 c2 : uchar) :
  describe c1 = describe c2 → c1 = c2.
Proof.
  destruct (decide (c1 ∈ known_codes)) as [H1|H1],
           (decide (c2 ∈ known_codes)) as [H2|H2].
  - each_known H1; each_known H2; vm_compute; congruence.
  - rewrite (describe_unknown c2 H2).
    each_known H1; vm_compute; discriminate.
  - rewrite (describe_unknown c1 H1).
    each_known H2; vm_compute; discriminate.
  - rewrite (describe_unknown c1 H1), (describe_unknown c2 H2).
    unfold unknown. intros E. apply app_inv_head in E.
    injection E as E. exact E.
Qed.

Lemma describe_injective_witness : chr "J" = chr "J".
Proof.
  apply (describe_injective (chr "J") (chr "J")). reflexivity.
Defined.

Lemma describe_nonempty (code : uchar) : describe code ≠ [].
Proof.
  destruct (decide (code ∈ known_codes)) as [H|H].
  - each_known H; vm_compute; discriminate.
  - rewrite (describe_unknown code H). discriminate.
Qed.

(** X9. The description text is empty exactly when there are no codes. *)
Theorem description_empty_iff (self : ScanResult) :
  get_human_readable_peripherals self = [] ↔ peripheral_codes self = [].
Proof.
  unfold get_human_readable_peripherals. cbv zeta.
  rewrite describe_codes_fmap.
  destruct (peripheral_codes self) as [|c codes]; [split; reflexivity|].
  split; [|discriminate]. rewrite fmap_cons. intros E. exfalso.
  pose proof (describe_nonempty c) as Hc.
  simpl in E. destruct (describe <$> codes).
  - exact (Hc E).
  - apply app_eq_nil in E as [E _]. exact (Hc E).
Qed.

(** * Report layout *)

Lemma len_app {A} (l1 l2 : list A) : len (l1 ++ l2) = len l1 + len l2.
Proof. unfold len. rewrite length_app. lia. Qed.

Lemma len_ljust (text : str) (width : Z) :
  len (ljust text width) = Z.max (len text) width.
Proof.
  unfold ljust. rewrite len_app. unfold len at 2.
  rewrite length_replicate. unfold len. lia.
Qed.

Lemma len_truncate_or_pad (text : str) (width : Z) :
  3 ≤ width ∨ len text ≤ width →
  len (truncate_or_pad text width) = width.
Proof.
  intros H. unfold truncate_or_pad.
  destruct (Z.gtb_spec (len text) width) as [Hgt|Hle].
  - rewrite len_app, len_slice by lia. change (len (lit "...")) with 3. lia.
  - rewrite len_ljust. lia.
Qed.

(** X10. For a width of at least 3, [truncate_or_pad] returns exactly
    [width] characters, whatever the text. *)
Theorem truncate_or_pad_width (text : str) (width : Z) :
  3 ≤ width → len (truncate_or_pad text width) = width.
Proof.
  intros Hw. unfold truncate_or_pad.
  destruct (Z.gtb_spec (len text) width) as [Hgt|Hle].
  - rewrite len_app, len_slice by lia. change (len (lit "...")) with 3. lia.
  - rewrite len_ljust. lia.
Qed.

Lemma truncate_or_pad_width_witness :
  len (truncate_or_pad (lit "Virtua Gun, Multitap") 8) = 8.
Proof.
  apply (truncate_or_pad_width (lit "Virtua Gun, Multitap") 8). lia.
Defined.

(** X11. For a width of at least 3, [truncate_or_pad] is idempotent: a
    column that was cut or padded once is left alone by a second pass. *)
Theorem truncate_or_pad_idempotent (text : str) (width : Z) :
  3 ≤ width →
  truncate_or_pad (truncate_or_pad text width) width =
  truncate_or_pad text width.
Proof.
  intros Hw.
  pose proof (len_truncate_or_pad text width (or_introl Hw)) as L.
  unfold truncate_or_pad at 1.
  destruct (Z.gtb_spec (len (truncate_or_pad text width)) width); [lia|].
  unfold ljust. rewrite L, Z.sub_diag. simpl. apply app_nil_r.
Qed.

Lemma truncate_or_pad_idempotent_witness :
  truncate_or_pad (truncate_or_pad (lit "Virtua Gun, Multitap") 8) 8 =
  truncate_or_pad (lit "Virtua Gun, Multitap") 8.
Proof.
  apply (truncate_or_pad_idempotent (lit "Virtua Gun, Multitap") 8). lia.
Defined.

(** X12. Below a width of 3 the ellipsis does not fit: a text longer than
    a width of 0, 1 or 2 loses its last [3 - width] characters, gains the
    three dots, and comes out longer than the width. *)
Theorem truncate_or_pad_narrow (text : str) (width : Z) :
  0 ≤ width < 3 → len text > width →
  truncate_or_pad text width =
    take (Z.to_nat (len text + width - 3)) text ++ lit "..." ∧
  len (truncate_or_pad text width) = Z.max (len text + width - 3) 0 + 3 ∧
  len (truncate_or_pad text width) > width.
Proof.
  intros Hw Hl. unfold truncate_or_pad.
  destruct (Z.gtb_spec (len text) width) as [_|]; [|lia].
  assert (slice text 0 (width - 3) =
          take (Z.to_nat (len text + width - 3)) text) as ->.
  { unfold slice, adjust_index.
    destruct (Z.ltb_spec 0 0), (Z.ltb_spec (width - 3) 0); try lia.
    rewrite Z.min_l by (unfold len; lia). rewrite drop_0. f_equal. lia. }
  split; [reflexivity|].
  rewrite len_app. change (len (lit "...")) with 3.
  unfold len in *. rewrite length_take. lia.
Qed.

Lemma truncate_or_pad_narrow_witness :
  truncate_or_pad (lit "JAMK") 2 =
    take (Z.to_nat (len (lit "JAMK") + 2 - 3)) (lit "JAMK") ++ lit "..." ∧
  len (truncate_or_pad (lit "JAMK") 2) = Z.max (len (lit "JAMK") + 2 - 3) 0 + 3 ∧
  len (truncate_or_pad (lit "JAMK") 2) > 2.
Proof.
  apply (truncate_or_pad_narrow (lit "JAMK") 2).
  - lia.
  - vm_compute. reflexivity.
Defined.

Lemma description_empty_iff_witness :
  get_human_readable_peripherals (ScanResult_init [] []) = [].
Proof.
  apply (proj2 (description_empty_iff (ScanResult_init [] []))). reflexivity.
Defined.

(** X13. Every line written to the report has its four leading columns at
    fixed widths 50, 8, 18 and 55, each followed by " | ", then the file
    name and a line feed: the columns are aligned whatever the result
    holds. *)
Theorem written_row_aligned (result : ScanResult) :
  ∃ c1 c2 c3 c4 : str,
    written_row result =
      c1 ++ bar ++ c2 ++ bar ++ c3 ++ bar ++ c4 ++ bar ++
      filename result ++ newline ∧
    len c1 = 50 ∧ len c2 = 8 ∧ len c3 = 18 ∧ len c4 = 55.
Proof.
  unfold written_row.
  destruct (skipped result); [|destruct (success result)].
  - exists (truncate_or_pad (lit "SKIPPED") COL_TITLE), (ljust [] COL_VERSION),
      (ljust [] COL_PERIPH_CODES),
      (truncate_or_pad (skip_reason result) COL_PERIPH_DESC).
    split; [unfold skipped_row; rewrite <- !app_assoc; reflexivity|].
    repeat split; try reflexivity.
    apply len_truncate_or_pad. left. unfold COL_PERIPH_DESC. lia.
  - exists (truncate_or_pad (game_title result) COL_TITLE),
      (truncate_or_pad (version result) COL_VERSION),
      (truncate_or_pad (rstrip (peripheral_raw result)) COL_PERIPH_CODES),
      (truncate_or_pad (get_human_readable_peripherals result)
         COL_PERIPH_DESC).
    split; [unfold success_row; cbv zeta; rewrite <- !app_assoc; reflexivity|].
    repeat split; apply len_truncate_or_pad; left; vm_compute; discriminate.
  - exists (truncate_or_pad (lit "ERROR") COL_TITLE), (ljust [] COL_VERSION),
      (ljust [] COL_PERIPH_CODES), (ljust (lit "Failed to read") COL_PERIPH_DESC).
    split; [unfold error_row; rewrite <- !app_assoc; reflexivity|].
    repeat split; reflexivity.
Qed.

(** ** The two reporting loops *)

Lemma print_results_loop_acc (results : list ScanResult)
    (successful skipped_count : Z) (printed : list str) :
  fold_left
    (λ '(successful, skipped_count, printed) result,
       if skipped result then
         (successful, skipped_count + 1, printed ++ [skipped_row result])
       else if success result then
         (successful + 1, skipped_count, printed ++ [success_row result])
       else (successful, skipped_count, printed))
    results (successful, skipped_count, printed) =
  (successful +
     len (filter (λ r, skipped r = false ∧ success r = true) results),
   skipped_count + len (filter (λ r, skipped r = true) results),
   printed ++ omap printed_row results).
Proof.
  revert successful skipped_count printed.
  induction results as [|r results IH]; intros successful skipped_count printed.
  - simpl. rewrite app_nil_r.
    change (len (@nil ScanResult)) with 0. rewrite !Z.add_0_r. reflexivity.
  - cbn [fold_left]. rewrite !filter_cons. cbn [omap list_omap].
    unfold printed_row.
    destruct (skipped r) eqn:Hk; [|destruct (success r) eqn:Hs];
      rewrite IH; repeat case_decide;
      try (exfalso; intuition congruence);
      rewrite <- ?app_assoc; simpl app;
      repeat apply (f_equal2 pair); unfold len; simpl length;
      try lia; reflexivity.
Qed.

Lemma length_omap_le {A B} (f : A → option B) (l : list A) :
  (length (omap f l) ≤ length l)%nat.
Proof.
  induction l as [|x l IH]; [reflexivity|].
  cbn [omap list_omap]. destruct (f x); simpl; lia.
Qed.

(** X14. The counters of [print_results]: [skipped] counts the results
    flagged skipped, [successful] the results flagged successful and not
    skipped, one line is printed for each of them, and the two add up to
    the number of results exactly when every result carries one of the two
    flags. *)
Theorem print_results_loop_counts (results : list ScanResult)
    (successful skipped_count : Z) (printed : list str) :
  print_results_loop results = (successful, skipped_count, printed) →
  skipped_count = len (filter (λ r, skipped r = true) results) ∧
  successful =
    len (filter (λ r, skipped r = false ∧ success r = true) results) ∧
  len printed = successful + skipped_count ∧
  (successful + skipped_count = len results ↔
   Forall (λ r, skipped r = true ∨ success r = true) results).
Proof.
  unfold print_results_loop. rewrite print_results_loop_acc.
  intros [= <- <- <-]. rewrite ?Z.add_0_l, ?app_nil_l.
  split; [reflexivity|]. split; [reflexivity|].
  induction results as [|r results [IHlen IHiff]].
  - split; [reflexivity|]. split; [constructor | reflexivity].
  - rewrite !filter_cons. cbn [omap list_omap].
    replace (printed_row r) with
      (if skipped r then Some (skipped_row r)
       else if success r then Some (success_row r) else None)
      by reflexivity.
    pose proof (length_omap_le printed_row results) as B2.
    rewrite Forall_cons.
    destruct (skipped r) eqn:Hk; [|destruct (success r) eqn:Hs];
      repeat case_decide; try (exfalso; intuition congruence);
      unfold len in *; simpl length;
      (split; [lia|]); rewrite <- IHiff; split; try tauto; lia.
Qed.

Lemma print_results_loop_counts_witness :
  2 = len (filter (λ r, skipped r = true)
             [skip (ScanResult_init [] []) []; skip (ScanResult_init [] []) [];
              ScanResult_init [] []]) ∧
  0 = len (filter (λ r, skipped r = false ∧ success r = true)
             [skip (ScanResult_init [] []) []; skip (ScanResult_init [] []) [];
              ScanResult_init [] []]) ∧
  len [skipped_row (skip (ScanResult_init [] []) []);
       skipped_row (skip (ScanResult_init [] []) [])] = 0 + 2 ∧
  (0 + 2 = len [skip (ScanResult_init [] []) []; skip (ScanResult_init [] []) [];
                ScanResult_init [] []] ↔
   Forall (λ r, skipped r = true ∨ success r = true)
     [skip (ScanResult_init [] []) []; skip (ScanResult_init [] []) [];
      ScanResult_init [] []]).
Proof.
  apply (print_results_loop_counts
           [skip (ScanResult_init [] []) []; skip (ScanResult_init [] []) [];
            ScanResult_init [] []]).
  reflexivity.
Defined.





(** * Scanning a file *)

(** X16. A result of [scan_file] carries exactly one of the two flags
    [skipped] and [success], the path it was given and the base name of
    that path. *)
Theorem scan_file_one_flag (fs : file_system) (path : str) :
  skipped (scan_file fs path) = negb (success (scan_file fs path)) ∧
  filepath (scan_file fs path) = path ∧
  filename (scan_file fs path) = basename fs path.
Proof.
  unfold scan_file. cbv zeta.
  destruct (bool_decide _); simpl negb; cbv iota; [|repeat split].
  destruct (isfile fs path); simpl negb; cbv iota; [|repeat split].
  destruct (getsize fs path <? SECTOR_SIZE_MODE1); [repeat split|].
  destruct (read_prefix fs path _) as [data| |message]; [|repeat split..].
  destruct (find_saturn_header data) as [[header|] is_raw]; [|repeat split].
  destruct (extract_peripheral_codes header) as [[raw codes]|e];
    [|repeat split].
  destruct (extract_game_info header) as [[[[title ver] product] area]|e];
    repeat split.
Qed.

Lemma scan_file_guards (fs : file_system) (path : str) :
  splitext_lower fs path ∈ [lit ".iso"; lit ".bin"] →
  isfile fs path = true →
  2048 ≤ getsize fs path →
  scan_file fs path =
  match read_prefix fs path (Z.min (getsize fs path) 65536) with
  | ReadPermissionError =>
      skip (ScanResult_init path (basename fs path)) (lit "Permission denied")
  | ReadException message =>
      skip (ScanResult_init path (basename fs path)) (lit "Error: " ++ message)
  | ReadData data =>
      match scan_data (ScanResult_init path (basename fs path)) data with
      | Ok result => result
      | Raise e =>
          skip (ScanResult_init path (basename fs path))
            (lit "Error: " ++ exception_text fs e)
      end
  end.
Proof.
  intros Hext Hfile Hsize. unfold scan_file. cbv zeta.
  rewrite (bool_decide_eq_true_2 _ Hext), Hfile. simpl negb. cbv iota.
  unfold SECTOR_SIZE_MODE1.
  destruct (Z.ltb_spec (getsize fs path) 2048); [lia|].
  destruct (read_prefix fs path _) as [data| |message]; try reflexivity.
  unfold scan_data.
  destruct (find_saturn_header data) as [[header|] is_raw]; [|reflexivity].
  rewrite extract_peripheral_codes_replace, extract_game_info_replace.
  reflexivity.
Qed.

(** X17. Once the extension, the file test and the size test pass and the
    read returns [data], the result of [scan_file] is the result of
    scanning [data]: skipped with "No Saturn header found" or successful
    with the decoded fields of the header. *)
Theorem scan_file_scans_data (fs : file_system) (path : str) (data : bytes) :
  splitext_lower fs path ∈ [lit ".iso"; lit ".bin"] →
  isfile fs path = true →
  2048 ≤ getsize fs path →
  read_prefix fs path (Z.min (getsize fs path) 65536) = ReadData data →
  scan_data (ScanResult_init path (basename fs path)) data =
  Ok (scan_file fs path).
Proof.
  intros Hext Hfile Hsize Hread.
  rewrite (scan_file_guards fs path Hext Hfile Hsize), Hread.
  unfold scan_data.
  destruct (find_saturn_header data) as [[header|] is_raw]; [|reflexivity].
  rewrite extract_peripheral_codes_replace, extract_game_info_replace.
  reflexivity.
Qed.

Lemma scan_file_scans_data_witness :
  scan_data (ScanResult_init (lit "game.iso") (lit "game.iso")) stripped_image =
  Ok (scan_file (single_file_system stripped_image) (lit "game.iso")).
Proof.
  apply (scan_file_scans_data (single_file_system stripped_image)
           (lit "game.iso") stripped_image).
  - vm_compute. left.
  - reflexivity.
  - vm_compute. discriminate.
  - vm_compute. reflexivity.
Defined.

(** X18. [scan_file] reports success exactly when the lowered extension
    is ".iso" or ".bin", the path is a regular file of at least 2048 bytes,
    reading at most 65536 bytes of it succeeds, and the bytes read hold a
    header. *)
Theorem scan_file_success_iff (fs : file_system) (path : str) :
  success (scan_file fs path) = true ↔
  splitext_lower fs path ∈ [lit ".iso"; lit ".bin"] ∧
  isfile fs path = true ∧
  2048 ≤ getsize fs path ∧
  ∃ data header is_raw,
    read_prefix fs path (Z.min (getsize fs path) 65536) = ReadData data ∧
    find_saturn_header data = (Some header, is_raw).
Proof.
  split.
  - unfold scan_file. cbv zeta.
    destruct (decide (splitext_lower fs path ∈ [lit ".iso"; lit ".bin"]))
      as [Hext|Hext];
      [rewrite (bool_decide_eq_true_2 _ Hext)
      | rewrite (bool_decide_eq_false_2 _ Hext)];
      simpl negb; cbv iota; [|discriminate].
    destruct (isfile fs path) eqn:Hfile; simpl negb; cbv iota; [|discriminate].
    unfold SECTOR_SIZE_MODE1.
    destruct (Z.ltb_spec (getsize fs path) 2048) as [|Hsize]; [discriminate|].
    destruct (read_prefix fs path _) as [data| |message] eqn:Hread;
      [|discriminate..].
    destruct (find_saturn_header data) as [[header|] is_raw] eqn:Hfind;
      [|discriminate].
    intros _. repeat split; try assumption. eauto.
  - intros (Hext & Hfile & Hsize & data & header & is_raw & Hread & Hfind).
    rewrite (scan_file_guards fs path Hext Hfile Hsize), Hread.
    unfold scan_data. rewrite Hfind.
    rewrite extract_peripheral_codes_replace, extract_game_info_replace.
    reflexivity.
Qed.

Lemma scan_file_success_iff_witness :
  success (scan_file (single_file_system stripped_image) (lit "game.iso")) =
  true.
Proof.
  apply (proj2 (scan_file_success_iff (single_file_system stripped_image)
                  (lit "game.iso"))).
  split; [vm_compute; left|]. split; [reflexivity|].
  split; [vm_compute; discriminate|].
  exists stripped_image, (slice stripped_image 0 256), false.
  split; vm_compute; reflexivity.
Defined.



(** ** Reporting what was scanned *)





(** * From the image to the fields *)

Lemma slice_window {A} (l : list A) (lo m a b : Z) :
  0 ≤ lo → 0 ≤ a ≤ b → b ≤ m → lo + m ≤ len l →
  slice (slice l lo (lo + m)) a b = slice l (lo + a) (lo + b).
Proof.
  intros Hlo Ha Hb Hm.
  assert (len (slice l lo (lo + m)) = m) as L by (rewrite len_slice; lia).
  rewrite (slice_in_range (slice l lo (lo + m))) by lia.
  rewrite !(slice_in_range l) by lia.
  replace (Z.to_nat (lo + a)) with (Z.to_nat lo + Z.to_nat a)%nat by lia.
  rewrite <- drop_drop, !take_drop_commute, take_take.
  do 3 f_equal. lia.
Qed.

Lemma find_saturn_header_sector (data header : bytes) (is_raw : bool) :
  find_saturn_header data = (Some header, is_raw) →
  ∃ sector, 0 ≤ sector < 16 ∧
    sector_offset sector is_raw + 2048 ≤ len data ∧
    header = slice data (sector_offset sector is_raw)
               (sector_offset sector is_raw + 256).
Proof.
  rewrite find_saturn_header_loops. cbv zeta.
  assert (∀ mode h, scan_sectors data (range 16) mode = Some h →
            ∃ sector, 0 ≤ sector < 16 ∧
              sector_offset sector mode + 2048 ≤ len data ∧
              h = slice data (sector_offset sector mode)
                    (sector_offset sector mode + 256)) as Hscan.
  { intros mode h (sector & Hs & Hfit & _ & Hh & _)%scan_sectors_range_first.
    eauto. }
  destruct (scan_sectors data (range 16) (detect_raw_mode data)) as [h|] eqn:E1.
  - intros [= <- <-]. apply Hscan. exact E1.
  - destruct (detect_raw_mode data); [|discriminate].
    destruct (scan_sectors data (range 16) false) as [h|] eqn:E2;
      [|discriminate].
    intros [= <- <-]. apply Hscan. exact E2.
Qed.

(** X21. Every byte range of a located header is the same range of the
    image, shifted by the offset of the sector it was found in, and has its
    full length: the fields decoded at 0x20, 0x2A, 0x40, 0x50 and 0x60 are
    read whole from the image, none of them cut short by the 256-byte
    header. *)
Theorem header_fields_from_image (data header : bytes) (is_raw : bool) :
  find_saturn_header data = (Some header, is_raw) →
  ∃ sector, 0 ≤ sector < 16 ∧
    ∀ a b, 0 ≤ a ≤ b → b ≤ 256 →
      slice header a b =
        slice data (sector_offset sector is_raw + a)
          (sector_offset sector is_raw + b) ∧
      len (slice header a b) = b - a.
Proof.
  intros (sector & Hs & Hfit & ->)%find_saturn_header_sector.
  exists sector. split; [exact Hs|]. intros a b Ha Hb.
  pose proof (sector_offset_nonneg sector is_raw ltac:(lia)) as Ho.
  rewrite slice_window by lia.
  split; [reflexivity|]. rewrite len_slice; lia.
Qed.

Lemma header_fields_from_image_witness :
  ∃ sector, 0 ≤ sector < 16 ∧
    ∀ a b, 0 ≤ a ≤ b → b ≤ 256 →
      slice (slice raw_image 16 272) a b =
        slice raw_image (sector_offset sector true + a)
          (sector_offset sector true + b) ∧
      len (slice (slice raw_image 16 272) a b) = b - a.
Proof.
  apply (header_fields_from_image raw_image (slice raw_image 16 272) true).
  vm_compute. reflexivity.
Defined.
